(** * neuralnet-evolution: the cell model, the environment loop and the
      rule binding of [main.py], embedded in Rocq.

    Conventions of the embedding.

    - A numpy [float64] is a real number ([R]): overflow and NaN are outside
      the model, and so is rounding error wherever it only moves a value by
      a unit in its last place.  [Cell.think] is the exception: it rounds
      to 0 or 1, so its float operations are a parameter ([arith]), with
      exact arithmetic as one instance.  Python [int]s are [Z].
    - Sizes that numpy uses as array dimensions or that feed [range]
      ([grid_size], [n_cell], [num_sim], [num_sensors], [num_actions]) are
      [nat]: a negative dimension makes [np.zeros] raise before any object
      exists, and a negative [range] bound behaves as zero.
    - Code that raises is a computation in the monad [M]: the state that was
      written before the exception stays written, as in Python.
    - The global random generator is a stream of samples with a cursor.
    - The modules [rules.sim_rules] and [rules.cell_rules] are not part of
      [main.py]; the registries they export, and what a simulation rule does
      when it is called, are parameters of the development.  So are the
      attributes a cell inherits from [object] ([object_type]). *)

From Stdlib Require Import Reals Lra Lia ZArith String Ascii Bool Arith.
From Stdlib Require Import DecimalString Decimal List.
Import ListNotations.

Set Implicit Arguments.

(** ** Exceptions and the state-and-exception monad *)

Inductive exn : Type :=
| AttributeError (msg : string)
| ValueError
| TypeError
| IndexError.

Inductive result (A : Type) : Type :=
| Ok (a : A)
| Raise (x : exn).

Arguments Ok {A} a.
Arguments Raise {A} x.

Definition M (S A : Type) : Type := S -> S * result A.

Definition ret {S A : Type} (a : A) : M S A := fun s => (s, Ok a).

Definition raise {S A : Type} (x : exn) : M S A := fun s => (s, Raise x).

Definition bind {S A B : Type} (m : M S A) (k : A -> M S B) : M S B :=
  fun s =>
    match m s with
    | (s', Ok a) => k a s'
    | (s', Raise x) => (s', Raise x)
    end.

Definition get {S : Type} : M S S := fun s => (s, Ok s).

Definition put {S : Type} (s : S) : M S unit := fun _ => (s, Ok tt).

Definition modify {S : Type} (f : S -> S) : M S unit := fun s => (f s, Ok tt).

Definition lift_result {S A : Type} (r : result A) : M S A := fun s => (s, r).

Declare Scope py_scope.
Delimit Scope py_scope with py.
Notation "x <- m ;; k" := (bind m (fun x => k))
  (at level 100, m at next level, right associativity) : py_scope.
Notation "m ;; k" := (bind m (fun _ => k))
  (at level 100, right associativity) : py_scope.
Open Scope py_scope.

(** [zoom] runs a computation on a part of the state: [proj] reads the part,
    [inj] writes it back, also when the computation raised. *)
Definition zoom {S T A : Type} (proj : S -> T) (inj : T -> S -> S)
           (m : M T A) : M S A :=
  fun s => let (t, r) := m (proj s) in (inj t s, r).

(** ** numpy scalars and arrays *)

Open Scope string_scope.
Open Scope R_scope.

(** [ndarray.round()]: to the nearest integer, ties to the even one. *)
Definition np_round (x : R) : R :=
  let f := Int_part x in
  let d := x - IZR f in
  if Rlt_dec d (1 / 2) then IZR f
  else if Rlt_dec (1 / 2) d then IZR (f + 1)
  else if Z.even f then IZR f else IZR (f + 1).

(** [int(x)] on a float: truncation toward zero. *)
Definition py_int (x : R) : Z :=
  if Rle_dec 0 x then Int_part x else (- Int_part (- x))%Z.

(** A one-dimensional array of shape (n,) or a column of shape (n,1). *)
Inductive ndarray : Type :=
| Vec (l : list R)
| Col (l : list R).

Definition ravel (a : ndarray) : list R :=
  match a with Vec l => l | Col l => l end.

Definition nd_map (f : R -> R) (a : ndarray) : ndarray :=
  match a with Vec l => Vec (map f l) | Col l => Col (map f l) end.

(** A two-dimensional array: its rows and its second dimension (kept apart
    so that an array with no row still has a shape). *)
Record matrix : Type := { m_rows : list (list R); m_cols : nat }.

Definition m_scale (k : R) (m : matrix) : matrix :=
  {| m_rows := map (map (Rmult k)) (m_rows m); m_cols := m_cols m |}.

Fixpoint dot (u v : list R) : R :=
  match u, v with
  | a :: u', b :: v' => a * b + dot u' v'
  | _, _ => 0
  end.

(** *** The arithmetic of [think]

    [think] rounds a sigmoid to 0 or 1, so there one unit in the last place
    of a float64 decides what the program stores.  The float operations
    behind that value are therefore kept apart from the real numbers they
    approximate: an [arith] gives one row of a matrix-vector product,
    [np.exp], [1 + x] and [1 / x].  Multiplying by -1 and [round] are exact
    in binary floating point and are not part of it. *)
Record arith : Type := {
  fl_dot : list R -> list R -> R;
  fl_exp : R -> R;
  fl_add : R -> R -> R;
  fl_div : R -> R -> R
}.

(** Arithmetic with no rounding error, the convention of the rest of the
    file. *)
Definition exact : arith :=
  {| fl_dot := dot; fl_exp := exp; fl_add := Rplus; fl_div := Rdiv |}.

(** [m @ v]: the inner dimensions must agree. *)
Definition np_matmul (A : arith) (m : matrix) (v : ndarray)
  : result ndarray :=
  if Nat.eqb (m_cols m) (length (ravel v)) then
    let y := map (fun row => fl_dot A row (ravel v)) (m_rows m) in
    Ok (match v with Vec _ => Vec y | Col _ => Col y end)
  else Raise ValueError.

Fixpoint map2 (f : R -> R -> R) (u v : list R) : list R :=
  match u, v with
  | a :: u', b :: v' => f a b :: map2 f u' v'
  | _, _ => []
  end.

(** Elementwise operation on two one-dimensional arrays with numpy's
    broadcasting: equal lengths, or one of them of length one. *)
Definition broadcast (f : R -> R -> R) (u v : list R) : result (list R) :=
  if Nat.eqb (length u) (length v) then Ok (map2 f u v)
  else match u, v with
       | [a], _ => Ok (map (f a) v)
       | _, [b] => Ok (map (fun a => f a b) u)
       | _, _ => Raise ValueError
       end.

(** [ufunc.reduce([a, b])] on two arrays: they are stacked first, which
    needs equal shapes, then combined elementwise. *)
Definition reduce2 (f : R -> R -> R) (u v : list R) : result (list R) :=
  if Nat.eqb (length u) (length v) then Ok (map2 f u v)
  else Raise ValueError.

(** ** Python values that travel as arguments *)

Inductive pyval : Type :=
| PyInt (z : Z)
| PyPairs (l : list (Z * Z))
| PyNone.

(** ** The random generator *)

Record RandomState : Type := { rs_cursor : nat; rs_sample : nat -> R }.

Definition rs_take (k : nat) : M RandomState (list R) :=
  fun s =>
    ({| rs_cursor := rs_cursor s + k; rs_sample := rs_sample s |},
     Ok (map (rs_sample s) (seq (rs_cursor s) k))).

(** ** Configuration ([params.yaml]) *)

Record Params : Type := {
  grid_size : nat;
  n_cell : nat;
  num_sim : nat;
  num_sensors : nat;
  num_actions : nat;
  mean_death : R; mean_sex : R; mean_strength : R; mean_velocity : R;
  std_death : R; std_sex : R; std_strength : R; std_velocity : R
}.

Definition mean_physics (p : Params) : list R :=
  [mean_death p; mean_sex p; mean_strength p; mean_velocity p].

Definition std_physics (p : Params) : list R :=
  [std_death p; std_sex p; std_strength p; std_velocity p].

(** ** Cell *)

Record Cell : Type := {
  c_grid_size : nat;
  alive : bool;
  age : Z;
  phys_dna : list R;
  brain_dna : matrix;
  death_age : R;
  sex : R;
  strength : R;
  velocity : R;
  pos : R * R;
  sensors : ndarray;
  actions : ndarray
}.

Definition set_alive (b : bool) (c : Cell) : Cell :=
  {| c_grid_size := c_grid_size c; alive := b; age := age c;
     phys_dna := phys_dna c; brain_dna := brain_dna c;
     death_age := death_age c; sex := sex c; strength := strength c;
     velocity := velocity c; pos := pos c; sensors := sensors c;
     actions := actions c |}.

Definition set_age (a : Z) (c : Cell) : Cell :=
  {| c_grid_size := c_grid_size c; alive := alive c; age := a;
     phys_dna := phys_dna c; brain_dna := brain_dna c;
     death_age := death_age c; sex := sex c; strength := strength c;
     velocity := velocity c; pos := pos c; sensors := sensors c;
     actions := actions c |}.

Definition set_pos (p : R * R) (c : Cell) : Cell :=
  {| c_grid_size := c_grid_size c; alive := alive c; age := age c;
     phys_dna := phys_dna c; brain_dna := brain_dna c;
     death_age := death_age c; sex := sex c; strength := strength c;
     velocity := velocity c; pos := p; sensors := sensors c;
     actions := actions c |}.

Definition set_sensors (s : ndarray) (c : Cell) : Cell :=
  {| c_grid_size := c_grid_size c; alive := alive c; age := age c;
     phys_dna := phys_dna c; brain_dna := brain_dna c;
     death_age := death_age c; sex := sex c; strength := strength c;
     velocity := velocity c; pos := pos c; sensors := s;
     actions := actions c |}.

Definition set_actions (a : ndarray) (c : Cell) : Cell :=
  {| c_grid_size := c_grid_size c; alive := alive c; age := age c;
     phys_dna := phys_dna c; brain_dna := brain_dna c;
     death_age := death_age c; sex := sex c; strength := strength c;
     velocity := velocity c; pos := pos c; sensors := sensors c;
     actions := a |}.

(** Rows of a freshly sampled (rows x cols) array, filled in row order. *)
Fixpoint reshape (rows cols : nat) (l : list R) : list (list R) :=
  match rows with
  | O => []
  | S r => firstn cols l :: reshape r cols (skipn cols l)
  end.

(** [Cell.__init__]: three draws, in source order. *)
Definition Cell_init (p : Params) : M RandomState Cell :=
  z <- rs_take 4 ;;
  w <- rs_take (num_actions p * num_sensors p) ;;
  u <- rs_take 2 ;;
  let dna := map2 Rplus (map2 Rmult z (std_physics p)) (mean_physics p) in
  ret {| c_grid_size := grid_size p;
         alive := true;
         age := 0;
         phys_dna := dna;
         brain_dna := {| m_rows := reshape (num_actions p) (num_sensors p) w;
                         m_cols := num_sensors p |};
         death_age := nth 0 dna 0;
         sex := np_round (nth 1 dna 0);
         strength := nth 2 dna 0;
         velocity := np_round (nth 3 dna 0);
         pos := (np_round (nth 0 u 0), np_round (nth 1 u 0));
         sensors := Col (repeat 0 (num_sensors p));
         actions := Col (repeat 0 (num_actions p)) |}.

(** The state a cell method runs on: the cell and the random generator. *)
Definition CellSt : Type := (Cell * RandomState)%type.

Definition on_self {A : Type} (m : M Cell A) : M CellSt A :=
  zoom fst (fun c s => (c, snd s)) m.

Definition on_rng {A : Type} (m : M RandomState A) : M CellSt A :=
  zoom snd (fun r s => (fst s, r)) m.

(** [Cell.move] *)
Definition move : M Cell unit :=
  c <- get ;;
  let a := ravel (actions c) in
  d <- lift_result (broadcast Rminus (firstn 2 a) (firstn 2 (skipn 2 a))) ;;
  let step := map (fun t => t * velocity c) d in
  s <- lift_result (broadcast Rplus [fst (pos c); snd (pos c)] step) ;;
  let hi := IZR (Z.of_nat (c_grid_size c) - 1) in
  lo <- lift_result (reduce2 Rmin s [1 * hi; 1 * hi]) ;;
  r <- lift_result (reduce2 Rmax lo [0; 0]) ;;
  match r with
  | [x; y] => put (set_pos (x, y) c)
  | _ => raise ValueError
  end.

(** [Cell.update_sensors]: the array literal is evaluated left to right, so
    the random draw comes before the clock is used as a number. *)
Definition update_sensors (clock : pyval) (pos_map : pyval) : M CellSt unit :=
  u <- on_rng (rs_take 1) ;;
  match clock with
  | PyInt t =>
      on_self (modify (fun c =>
        set_sensors (Vec [1;
                          nth 0 u 0;
                          sin (PI * IZR t / 10);
                          fst (pos c) / INR (c_grid_size c);
                          snd (pos c) / INR (c_grid_size c)]) c))
  | _ => raise TypeError
  end.

(** [Cell.think], in the arithmetic [A]; [-1 * brain_dna @ sensors] parses
    as [(-1 * brain_dna) @ sensors]. *)
Definition think (A : arith) : M Cell unit :=
  c <- get ;;
  z <- lift_result (np_matmul A (m_scale (-1) (brain_dna c)) (sensors c)) ;;
  put (set_actions
         (nd_map (fun t => np_round (fl_div A 1 (fl_add A 1 (fl_exp A t)))) z)
         c).

(** [Cell.live] *)
Definition live (clock : pyval) (pos_map : pyval) : M CellSt unit :=
  on_self move ;;
  update_sensors clock pos_map ;;
  on_self (think exact) ;;
  on_self (modify (fun c => set_age (age c + 1) c)) ;;
  c <- on_self get ;;
  if Rle_dec (death_age c) (IZR (age c))
  then on_self (modify (set_alive false))
  else ret tt.

(** *** Attribute lookup on a cell

    [getattr(cell, name)] finds the five methods the class defines
    ([__init__] and the four others), the data attributes set in
    [__init__], and the attributes every instance has from [object] and
    from the class machinery ([__class__], [__dict__], [__repr__], [__eq__],
    ...).  The constructor never reaches its [setattr] on a cell (see
    [Simulation_init]), so a cell has no other attribute.

    The last group is the interpreter's, not [main.py]'s: which names it
    holds and what calling one of them does is given by an [object_type].
    All its names begin with two underscores, and the lookup asks the
    record about no other name. *)

Record object_type : Type := {
  has_attr : string -> bool;
  call_attr : string -> list pyval -> M CellSt pyval
}.

Inductive cell_attr : Type :=
| MInit
| MLive
| MUpdateSensors
| MThink
| MMove
| Data
| Inherited (name : string).

Definition Cell_data_names : list string :=
  ["grid_size"; "alive"; "age"; "phys_dna"; "brain_dna"; "death_age"; "sex";
   "strength"; "velocity"; "pos"; "sensors"; "actions"]%string.

Definition Cell_getattr (o : object_type) (c : Cell) (name : string)
  : result cell_attr :=
  if String.eqb name "__init__" then Ok MInit
  else if String.eqb name "live" then Ok MLive
  else if String.eqb name "update_sensors" then Ok MUpdateSensors
  else if String.eqb name "think" then Ok MThink
  else if String.eqb name "move" then Ok MMove
  else if existsb (String.eqb name) Cell_data_names then Ok Data
  else if String.prefix "__" name && has_attr o name then Ok (Inherited name)
  else Raise (AttributeError
                ("'Cell' object has no attribute '" ++ name ++ "'")).

(** Calling what [getattr] returned with positional arguments.  The bound
    [__init__] runs the constructor's body again on the same cell: it reads
    the module-level [params] and assigns every attribute anew. *)
Definition invoke (p : Params) (o : object_type) (a : cell_attr)
           (args : list pyval) : M CellSt pyval :=
  match a, args with
  | MInit, [] => c <- on_rng (Cell_init p) ;; on_self (put c) ;; ret PyNone
  | MLive, [clock; pos_map] => live clock pos_map ;; ret PyNone
  | MUpdateSensors, [clock; pos_map] =>
      update_sensors clock pos_map ;; ret PyNone
  | MThink, [] => on_self (think exact) ;; ret PyNone
  | MMove, [] => on_self move ;; ret PyNone
  | Inherited name, _ => call_attr o name args
  | _, _ => raise TypeError
  end.

(** ** Environment, rule registries and Simulation *)

Definition string_of_nat (n : nat) : string :=
  NilEmpty.string_of_uint (Nat.to_uint n).

Definition string_of_Z (z : Z) : string :=
  NilZero.string_of_int (Z.to_int z).

Section Rules.

(** Function objects exported by the rule modules, and their [repr]. *)
Variable fn : Type.
Variable fn_repr : fn -> string.

(** [inspect.getmembers(sr, inspect.isfunction)] and the same for [cr]. *)
Variable simrules : list (string * fn).
Variable cellrules : list (string * fn).

(** What [Environment.cellrule] holds: the string ["default"] after
    [Environment.__init__], a registry entry after [Simulation.__init__]. *)
Inductive rule_ref : Type :=
| RuleName (s : string)
| RuleEntry (r : string * fn).

(** [f"{attr}"] *)
Definition py_format (r : rule_ref) : string :=
  match r with
  | RuleName s => s
  | RuleEntry (n, f) => "('" ++ n ++ "', " ++ fn_repr f ++ ")"
  end.

(** [bound] holds the attributes attached by [setattr]; rule names are
    taken to differ from the names of the fields and methods themselves
    ([Environment_own_names]), which [setattr] would replace. *)
Record Environment : Type := {
  cellrule : rule_ref;
  clock : Z;
  size : nat;
  ncell : nat;
  grid : list (list Z);
  cells : list Cell;
  pos_map : pyval;
  bound : list (string * fn)
}.

Definition Environment_own_names : list string :=
  ["cellrule"; "clock"; "size"; "ncell"; "grid"; "cells"; "pos_map";
   "call_all"; "update"; "get_grid"; "plotgrid"]%string.

Definition set_cellrule (r : rule_ref) (e : Environment) : Environment :=
  {| cellrule := r; clock := clock e; size := size e; ncell := ncell e;
     grid := grid e; cells := cells e; pos_map := pos_map e;
     bound := bound e |}.

Definition set_clock (t : Z) (e : Environment) : Environment :=
  {| cellrule := cellrule e; clock := t; size := size e; ncell := ncell e;
     grid := grid e; cells := cells e; pos_map := pos_map e;
     bound := bound e |}.

Definition set_grid (g : list (list Z)) (e : Environment) : Environment :=
  {| cellrule := cellrule e; clock := clock e; size := size e;
     ncell := ncell e; grid := g; cells := cells e; pos_map := pos_map e;
     bound := bound e |}.

Definition set_cells (cs : list Cell) (e : Environment) : Environment :=
  {| cellrule := cellrule e; clock := clock e; size := size e;
     ncell := ncell e; grid := grid e; cells := cs; pos_map := pos_map e;
     bound := bound e |}.

Definition set_pos_map (m : pyval) (e : Environment) : Environment :=
  {| cellrule := cellrule e; clock := clock e; size := size e;
     ncell := ncell e; grid := grid e; cells := cells e; pos_map := m;
     bound := bound e |}.

(** [setattr(e, name, f)]: the newest binding of a name wins. *)
Definition env_setattr (name : string) (f : fn) (e : Environment)
  : Environment :=
  {| cellrule := cellrule e; clock := clock e; size := size e;
     ncell := ncell e; grid := grid e; cells := cells e;
     pos_map := pos_map e; bound := (name, f) :: bound e |}.

(** What the program writes: [print] lines and the figures handed to
    matplotlib by [plotgrid]. *)
Inductive output : Type :=
| Printed (line : string)
| Plotted (title : string) (g : list (list Z)).

(** The state the environment methods run on.  [invoked] is a ghost log
    of the per-cell calls made by [call_all]: the index of the cell in the
    live collection and the attribute name. *)
Record EnvSt : Type := {
  env : Environment;
  rng : RandomState;
  out : list output;
  invoked : list (nat * string)
}.

Definition on_env (f : Environment -> Environment) : M EnvSt unit :=
  modify (fun s => {| env := f (env s); rng := rng s; out := out s;
                      invoked := invoked s |}).

Definition emit (o : output) : M EnvSt unit :=
  modify (fun s => {| env := env s; rng := rng s; out := out s ++ [o];
                      invoked := invoked s |}).

Definition log_call (i : nat) (name : string) : M EnvSt unit :=
  modify (fun s => {| env := env s; rng := rng s; out := out s;
                      invoked := invoked s ++ [(i, name)] |}).

Fixpoint replace_nth (i : nat) (c : Cell) (l : list Cell) : list Cell :=
  match l, i with
  | [], _ => []
  | _ :: l', O => c :: l'
  | x :: l', S j => x :: replace_nth j c l'
  end.

(** Run a method on the i-th live cell; the cell object is mutated in
    place, also when the method raises half-way. *)
Definition at_cell {A : Type} (i : nat) (m : M CellSt A) : M EnvSt A :=
  fun s =>
    match nth_error (cells (env s)) i with
    | Some c =>
        let '((c', r'), res) := m (c, rng s) in
        ({| env := set_cells (replace_nth i c' (cells (env s))) (env s);
            rng := r'; out := out s; invoked := invoked s |}, res)
    | None => (s, Raise IndexError)
    end.

(** [[getattr(e, attr) for e in self.cells]] *)
Fixpoint resolve_all (o : object_type) (name : string) (cs : list Cell)
  : result (list cell_attr) :=
  match cs with
  | [] => Ok []
  | c :: cs' =>
      match Cell_getattr o c name with
      | Raise x => Raise x
      | Ok a =>
          match resolve_all o name cs' with
          | Raise x => Raise x
          | Ok l => Ok (a :: l)
          end
      end
  end.

(** The second line of [call_all]: every method is called with the given
    arguments; the i-th method is bound to the i-th cell. *)
Fixpoint invoke_each (p : Params) (o : object_type) (name : string)
         (args : list pyval) (i : nat) (ms : list cell_attr)
  : M EnvSt (list pyval) :=
  match ms with
  | [] => ret []
  | a :: ms' =>
      log_call i name ;;
      r <- at_cell i (invoke p o a args) ;;
      rs <- invoke_each p o name args (S i) ms' ;;
      ret (r :: rs)
  end.

(** [Environment.call_all] *)
Definition call_all (p : Params) (o : object_type) (name : string)
           (args : list pyval) : M EnvSt (list pyval) :=
  s <- get ;;
  methods <- lift_result (resolve_all o name (cells (env s))) ;;
  invoke_each p o name args 0 methods.

(** [np.any] on a list of objects: a [Cell] defines neither [__bool__]
    nor [__len__], so every cell counts as true. *)
Definition np_any (cs : list Cell) : bool := existsb (fun _ => true) cs.

(** [Environment.update] *)
Definition update (p : Params) (o : object_type) : M EnvSt Z :=
  s <- get ;;
  if negb (np_any (cells (env s))) then ret 0%Z
  else
    call_all p o (py_format (cellrule (env s)))
             [PyInt (clock (env s)); pos_map (env s)] ;;
    on_env (fun e => set_clock (clock e + 1) e) ;;
    call_all p o "think" [] ;;
    on_env (fun e => set_cells (filter alive (cells e)) e) ;;
    ret 1%Z.

(** [np.zeros((n, n), dtype=int)] *)
Definition np_zeros (n : nat) : list (list Z) := repeat (repeat 0%Z n) n.

(** An index into an axis of length [n]: negative indices count from the
    end, anything outside [-n, n) is an [IndexError]. *)
Definition norm_index (n : nat) (i : Z) : result nat :=
  if (0 <=? i)%Z && (i <? Z.of_nat n)%Z then Ok (Z.to_nat i)
  else if (- Z.of_nat n <=? i)%Z && (i <? 0)%Z
       then Ok (Z.to_nat (i + Z.of_nat n))
       else Raise IndexError.

Fixpoint norm_indices (n : nat) (idx : list (Z * Z))
  : result (list (nat * nat)) :=
  match idx with
  | [] => Ok []
  | (r, c) :: idx' =>
      match norm_index n r, norm_index n c with
      | Ok r', Ok c' =>
          match norm_indices n idx' with
          | Ok l => Ok ((r', c') :: l)
          | Raise x => Raise x
          end
      | Raise x, _ => Raise x
      | _, Raise x => Raise x
      end
  end.

Fixpoint set_nth {A : Type} (i : nat) (f : A -> A) (l : list A) : list A :=
  match l, i with
  | [], _ => []
  | x :: l', O => f x :: l'
  | x :: l', S j => x :: set_nth j f l'
  end.

Definition grid_set (v : Z) (g : list (list Z)) (rc : nat * nat)
  : list (list Z) :=
  set_nth (fst rc) (set_nth (snd rc) (fun _ => v)) g.

(** [g[rows, cols] = v] with index tuples: every index is checked before
    anything is written. *)
Definition fancy_assign (n : nat) (g : list (list Z)) (idx : list (Z * Z))
           (v : Z) : result (list (list Z)) :=
  match norm_indices n idx with
  | Ok l => Ok (fold_left (grid_set v) l g)
  | Raise x => Raise x
  end.

Definition cell_coords (c : Cell) : Z * Z :=
  (py_int (fst (pos c)), py_int (snd (pos c))).

(** [Environment.get_grid]: unzipping [pos_map] into [rows, cols]
    gives two tuples when there is at least one pair, and the unpacking
    fails with a [ValueError] on an empty map. *)
Definition get_grid : M EnvSt unit :=
  on_env (fun e => set_grid (np_zeros (size e)) e) ;;
  on_env (fun e => set_pos_map (PyPairs (map cell_coords (cells e))) e) ;;
  s <- get ;;
  match map cell_coords (cells (env s)) with
  | [] => raise ValueError
  | pm =>
      g <- lift_result (fancy_assign (size (env s)) (grid (env s)) pm 1) ;;
      on_env (set_grid g)
  end.

(** [Environment.plotgrid] *)
Definition plotgrid : M EnvSt unit :=
  s <- get ;;
  emit (Plotted ("Generation " ++ string_of_Z (clock (env s)))
                (grid (env s))).

Fixpoint replicateM {S A : Type} (n : nat) (m : M S A) : M S (list A) :=
  match n with
  | O => ret []
  | S k => a <- m ;; l <- replicateM k m ;; ret (a :: l)
  end.

(** [Environment.__init__] *)
Definition Environment_init (p : Params) : M RandomState Environment :=
  cs <- replicateM (n_cell p) (Cell_init p) ;;
  ret {| cellrule := RuleName "default";
         clock := 0;
         size := grid_size p;
         ncell := n_cell p;
         grid := np_zeros (grid_size p);
         cells := cs;
         pos_map := PyInt 0;
         bound := [] |}.

(** What calling a simulation rule on the environment does. *)
Variable sim_call : fn -> M EnvSt unit.

Fixpoint lookup (name : string) (l : list (string * fn)) : option fn :=
  match l with
  | [] => None
  | (n, f) :: l' => if String.eqb n name then Some f else lookup name l'
  end.

(** [getattr(self.e, name)(self.e)]: an attribute bound by [setattr] is
    a plain function and receives the environment as its one argument.
    The program calls no other name: [Simulation.__init__] binds the name
    [main] uses.  A name that is neither bound nor an attribute of the
    environment ends in [Environment.__getattr__], whose callback calls
    the name, a string, and so raises [TypeError]. *)
Definition env_call (name : string) : M EnvSt unit :=
  s <- get ;;
  match lookup name (bound (env s)) with
  | Some f => sim_call f
  | None => raise TypeError
  end.

Record Simulation : Type := { simrule : string * fn; e : Environment }.

(** [next((r for r in rules if r[0] == wanted), None)] *)
Definition resolve (wanted : string) (rules : list (string * fn))
  : option (string * fn) :=
  find (fun r => String.eqb (fst r) wanted) rules.

Definition names (rules : list (string * fn)) : string :=
  String.concat ", " (map fst rules).

(** [Simulation.__init__].  In the loop over the cells the arguments of
    [setattr] are evaluated first, and [self.cellrule] is not an attribute
    of a [Simulation] (the resolved entry is the local [cellrule]): the
    first cell raises [AttributeError] before anything is attached. *)
Definition Simulation_init (p : Params) (wsimrule wcellrule : string)
  : M RandomState Simulation :=
  match resolve wsimrule simrules with
  | None =>
      raise (AttributeError
               (wsimrule ++ " is not a valid simulation ruleset. ["
                         ++ names simrules ++ "]"))
  | Some sr =>
      e0 <- Environment_init p ;;
      let e1 := env_setattr (fst sr) (snd sr) e0 in
      match resolve wcellrule cellrules with
      | None =>
          raise (AttributeError
                   (wcellrule ++ " is not a valid cell ruleset. ["
                              ++ names cellrules ++ "]"))
      | Some cr =>
          match cells e1 with
          | [] => ret tt
          | _ :: _ =>
              raise (AttributeError
                       "'Simulation' object has no attribute 'cellrule'")
          end ;;
          ret {| simrule := sr; e := set_cellrule (RuleEntry cr) e1 |}
      end
  end.

(** One pass of the [try] block of [Simulation.main]. *)
Definition iteration (sr : string * fn) : M EnvSt unit :=
  env_call (fst sr) ;;
  get_grid ;;
  plotgrid.

(** The [for] loop of [Simulation.main] over the remaining indices: a
    [ValueError] prints ["Dead"] and breaks, any other exception leaves
    the loop and the method. *)
Fixpoint main_loop (sr : string * fn) (idx : list nat) : M EnvSt unit :=
  match idx with
  | [] => ret tt
  | i :: rest =>
      emit (Printed ("iteration n. " ++ string_of_nat i)) ;;
      fun s =>
        match iteration sr s with
        | (s', Ok _) => main_loop sr rest s'
        | (s', Raise ValueError) => emit (Printed "Dead") s'
        | (s', Raise x) => (s', Raise x)
        end
  end.

(** [Simulation.main] *)
Definition main (p : Params) (sr : string * fn) : M EnvSt Z :=
  main_loop sr (seq 0 (num_sim p)) ;;
  ret 0%Z.

End Rules.

Arguments RuleName {fn} s.
Arguments Environment_init {fn} p _.

Section Script.

Variable fn : Type.
Variable simrules : list (string * fn).
Variable cellrules : list (string * fn).
Variable sim_call : fn -> M (EnvSt fn) unit.

(** The state [main] starts from: the environment the constructor built,
    the generator as the constructor left it, nothing printed yet. *)
Definition start (sim : Simulation fn) (rs : RandomState) : EnvSt fn :=
  {| env := e sim; rng := rs; out := []; invoked := [] |}.

(** The script at the end of [main.py]: [s = Simulation()] with both
    default names and [s.main()], seen from outside as what was printed or
    plotted and how the run ended. *)
Definition entry_point (p : Params) (rs : RandomState)
  : list output * result Z :=
  match Simulation_init simrules cellrules p "default" "default" rs with
  | (_, Raise x) => ([], Raise x)
  | (rs', Ok sim) =>
      let (s', r) := main sim_call p (simrule sim) (start sim rs') in
      (out s', r)
  end.

End Script.

(** * Vocabulary of the properties, and inputs to run the program on *)

Definition sigmoid (x : R) : R := 1 / (1 + exp (- x)).

Definition clamp (hi t : R) : R := Rmax (Rmin t hi) 0.

(** A cell to evaluate the methods on: a 5 x 5 grid, four action channels,
    five sensors, standing at (2, 0) with velocity 1. *)
Definition sample_cell : Cell :=
  {| c_grid_size := 5; alive := true; age := 0;
     phys_dna := [3; 0; 1; 1];
     brain_dna := {| m_rows := [[0; 0; 0; 0; 0]; [0; 0; 0; 0; 0];
                                [0; 0; 0; 0; 0]; [0; 0; 0; 0; 0]];
                     m_cols := 5 |};
     death_age := 3; sex := 0; strength := 1; velocity := 1;
     pos := (2, 0);
     sensors := Col [0; 0; 0; 0; 0];
     actions := Vec [1; 0; 0; 1] |}.

Definition same_shape (v : ndarray) (l : list R) : ndarray :=
  match v with Vec _ => Vec l | Col _ => Col l end.

Definition small_params : Params :=
  {| grid_size := 5; n_cell := 1; num_sim := 1;
     num_sensors := 3; num_actions := 4;
     mean_death := 3; mean_sex := 0; mean_strength := 1; mean_velocity := 1;
     std_death := 0; std_sex := 0; std_strength := 0; std_velocity := 0 |}.

Definition zero_rng : RandomState :=
  {| rs_cursor := 0; rs_sample := fun _ => 0 |}.

(** Shapes under which no statement of [live] raises: five sensor weights
    per row, at least four rows and at least four action channels. *)
Definition well_shaped (c : Cell) : Prop :=
  m_cols (brain_dna c) = 5%nat /\
  (4 <= length (m_rows (brain_dna c)))%nat /\
  (4 <= length (ravel (actions c)))%nat.

(** What one call of [live] does to age and alive, whether or not it
    returns. *)
Definition step_spec (a : Cell) (r : CellSt * result unit) : Prop :=
  let b := fst (fst r) in
  death_age b = death_age a /\
  (age a <= age b)%Z /\
  (alive a = false -> alive b = false) /\
  (snd r = Ok tt ->
   age b = (age a + 1)%Z /\
   (alive a = true -> (alive b = false <-> death_age a <= IZR (age b)))).

(** A sequence of [live] calls on one cell, each with its own clock and
    position map: every call starts from the state the one before left. *)
Fixpoint live_run (ins : list (Z * pyval)) (st : CellSt)
  : list (CellSt * result unit) :=
  match ins with
  | [] => []
  | (t, pos_map) :: ins' =>
      let r := live (PyInt t) pos_map st in
      r :: live_run ins' (fst r)
  end.

Definition states (ins : list (Z * pyval)) (st : CellSt) : list Cell :=
  fst st :: map (fun r => fst (fst r)) (live_run ins st).

Definition outcomes (ins : list (Z * pyval)) (st : CellSt)
  : list (result unit) :=
  map snd (live_run ins st).

(** An environment built by [Environment.__init__] alone, with no cell and
    with one cell. *)
Definition env_of (cs : list Cell) : Environment unit :=
  {| cellrule := RuleName "default"; clock := 0; size := 5;
     ncell := length cs; grid := np_zeros 5; cells := cs;
     pos_map := PyInt 0; bound := [] |}.

Definition state_of (e : Environment unit) : EnvSt unit :=
  {| env := e; rng := zero_rng; out := []; invoked := [] |}.

Definition unit_repr (f : unit) : string := "<function default>".

Definition row_sum (r : list Z) : Z := fold_right Z.add 0%Z r.

(** [np.sum(grid)] *)
Definition grid_sum (g : list (list Z)) : Z :=
  fold_right Z.add 0%Z (map row_sum g).

(** [grid[r, c]] *)
Definition grid_at (g : list (list Z)) (r c : nat) : Z :=
  nth c (nth r g []) 0%Z.

Definition binary_row (r : list Z) : Prop :=
  Forall (fun v => v = 0%Z \/ v = 1%Z) r.

Definition binary_grid (g : list (list Z)) : Prop := Forall binary_row g.

Definition square (n : nat) (g : list (list Z)) : Prop :=
  length g = n /\ Forall (fun r => length r = n) g.

(** Whether the pair (r, c) occurs in a position map. *)
Definition occupied (pm : list (Z * Z)) (r c : nat) : bool :=
  existsb (fun rc => Z.eqb (fst rc) (Z.of_nat r) &&
                     Z.eqb (snd rc) (Z.of_nat c)) pm.

Definition in_grid (n : nat) (rc : Z * Z) : Prop :=
  (0 <= fst rc < Z.of_nat n)%Z /\ (0 <= snd rc < Z.of_nat n)%Z.

Definition to_nat_pair (rc : Z * Z) : nat * nat :=
  (Z.to_nat (fst rc), Z.to_nat (snd rc)).

(** The spec's invariant on a cell's position, for a grid of side [n]. *)
Definition on_grid (n : nat) (c : Cell) : Prop :=
  0 <= fst (pos c) <= IZR (Z.of_nat n - 1) /\
  0 <= snd (pos c) <= IZR (Z.of_nat n - 1).

(** The grid [get_grid] builds from a position map: zeros, then a 1 written
    at every pair in turn. *)
Definition marked (n : nat) (pm : list (Z * Z)) : list (list Z) :=
  fold_left (grid_set 1) (map to_nat_pair pm) (np_zeros n).


(** A cell whose weight matrix fits its current sensor vector. *)
Definition ready (c : Cell) : Prop :=
  m_cols (brain_dna c) = length (ravel (sensors c)).

(** Modelled from the spec: the modules [rules.sim_rules] and
    [rules.cell_rules] are missing.  Section 2 has the bound simulation rule
    run the environment's [update]; section 4.3 gives "invoking the per-cell
    compound step across all cells" as an example of a simulation rule.
    [fn_update] and [fn_live] are these two. *)
Inductive demo_fn : Type :=
| fn_update
| fn_live.

Definition demo_repr (f : demo_fn) : string := "<function default>".

(** An [object_type] for the examples below, none of which looks up a name
    that begins with two underscores: it holds no name. *)
Definition bare_object : object_type :=
  {| has_attr := fun _ => false; call_attr := fun _ _ => raise TypeError |}.

Definition demo_call (p : Params) (f : demo_fn) : M (EnvSt demo_fn) unit :=
  match f with
  | fn_update => update demo_repr p bare_object ;; ret tt
  | fn_live =>
      s <- get ;;
      call_all p bare_object "live" [PyInt (clock (env s)); pos_map (env s)] ;;
      ret tt
  end.

Definition demo_registry : list (string * demo_fn) :=
  [("default", fn_update); ("step", fn_live)].

(** The environment [Simulation.__init__] returns when no cell is
    configured, and one with a single cell and the rule ["step"] bound. *)
Definition extinct_state : EnvSt demo_fn :=
  {| env := {| cellrule := RuleEntry ("default", fn_update); clock := 0;
               size := 5; ncell := 0; grid := np_zeros 5; cells := [];
               pos_map := PyInt 0; bound := [("default", fn_update)] |};
     rng := zero_rng; out := []; invoked := [] |}.

Definition populated_state : EnvSt demo_fn :=
  {| env := {| cellrule := RuleName "default"; clock := 0;
               size := 5; ncell := 1; grid := np_zeros 5;
               cells := [sample_cell];
               pos_map := PyInt 0; bound := [("step", fn_live)] |};
     rng := zero_rng; out := []; invoked := [] |}.

Definition three_runs : Params :=
  {| grid_size := 5; n_cell := 0; num_sim := 3;
     num_sensors := 5; num_actions := 4;
     mean_death := 3; mean_sex := 0; mean_strength := 1; mean_velocity := 1;
     std_death := 0; std_sex := 0; std_strength := 0; std_velocity := 0 |}.

Definition one_run : Params :=
  {| grid_size := 5; n_cell := 1; num_sim := 1;
     num_sensors := 5; num_actions := 4;
     mean_death := 3; mean_sex := 0; mean_strength := 1; mean_velocity := 1;
     std_death := 0; std_sex := 0; std_strength := 0; std_velocity := 0 |}.

Definition extinct_after : EnvSt demo_fn :=
  {| env := {| cellrule := RuleEntry ("default", fn_update); clock := 0;
               size := 5; ncell := 0; grid := np_zeros 5; cells := [];
               pos_map := PyPairs []; bound := [("default", fn_update)] |};
     rng := zero_rng; out := [Printed "iteration n. 0"]; invoked := [] |}.

Definition live_state : EnvSt unit :=
  {| env := {| cellrule := RuleName "live"; clock := 0; size := 5;
               ncell := 1; grid := np_zeros 5; cells := [sample_cell];
               pos_map := PyInt 0; bound := [] |};
     rng := zero_rng; out := []; invoked := [] |}.

(** A float that holds a whole number. *)
Definition whole (x : R) : Prop := exists z : Z, x = IZR z.

(** A cell whose position and velocity are whole numbers and whose actions
    are all 0 or 1. *)
Definition whole_cell (c : Cell) : Prop :=
  whole (fst (pos c)) /\ whole (snd (pos c)) /\ whole (velocity c) /\
  Forall (fun a => a = 0 \/ a = 1) (ravel (actions c)).

(** The sensor vector [update_sensors] writes for a cell at a clock value,
    with [u] the sample drawn. *)
Definition sensed (c : Cell) (t : Z) (u : R) : ndarray :=
  Vec [1; u; sin (PI * IZR t / 10);
       fst (pos c) / INR (c_grid_size c);
       snd (pos c) / INR (c_grid_size c)].

(** The position [move] computes from four action channels. *)
Definition moved (c : Cell) (a0 a1 a2 a3 : R) : R * R :=
  let hi := IZR (Z.of_nat (c_grid_size c) - 1) in
  (clamp hi (fst (pos c) + velocity c * (a0 - a2)),
   clamp hi (snd (pos c) + velocity c * (a1 - a3))).

Definition rs_skip (k : nat) (rs : RandomState) : RandomState :=
  {| rs_cursor := rs_cursor rs + k; rs_sample := rs_sample rs |}.

(** A cell configured with three sensors: its weights are three columns
    wide. *)
Definition narrow_cell : Cell :=
  {| c_grid_size := 5; alive := true; age := 0; phys_dna := [3; 0; 1; 1];
     brain_dna := {| m_rows := [[0; 0; 0]; [0; 0; 0]; [0; 0; 0]; [0; 0; 0]];
                     m_cols := 3 |};
     death_age := 3; sex := 0; strength := 1; velocity := 1;
     pos := (2, 0); sensors := Col [0; 0; 0];
     actions := Vec [1; 0; 0; 1] |}.

Section Frames.

Variable fn : Type.

(** Everything of the state that a broadcast has no business with: the
    fields of the environment other than the cells themselves, the printed
    output, and the number of cells. *)
Definition same_frame (s s' : EnvSt fn) : Prop :=
  cellrule (env s') = cellrule (env s) /\
  clock (env s') = clock (env s) /\
  size (env s') = size (env s) /\
  ncell (env s') = ncell (env s) /\
  grid (env s') = grid (env s) /\
  pos_map (env s') = pos_map (env s) /\
  bound (env s') = bound (env s) /\
  out s' = out s /\
  length (cells (env s')) = length (cells (env s)).

(** What [get_grid] leaves alone. *)
Definition same_population (s s' : EnvSt fn) : Prop :=
  cells (env s') = cells (env s) /\
  cellrule (env s') = cellrule (env s) /\
  clock (env s') = clock (env s) /\
  size (env s') = size (env s) /\
  ncell (env s') = ncell (env s) /\
  bound (env s') = bound (env s) /\
  rng s' = rng s /\ out s' = out s /\ invoked s' = invoked s.

End Frames.

(** An index numpy accepts on an axis of length [n]. *)
Definition indexable (n : nat) (i : Z) : Prop :=
  (- Z.of_nat n <= i < Z.of_nat n)%Z.

(** The squares of an n x n grid, row by row. *)
Definition squares (n : nat) : list (nat * nat) :=
  list_prod (seq 0 n) (seq 0 n).

(** [call_all] written as one pass over the cells: each cell in turn, with
    the generator threaded through, until a call raises. *)
Fixpoint run_cells (m : M CellSt pyval) (cs : list Cell) (rs : RandomState)
  : (list Cell * RandomState) * result (list pyval) :=
  match cs with
  | [] => (([], rs), Ok [])
  | c :: cs' =>
      match m (c, rs) with
      | ((c1, rs1), Ok v) =>
          match run_cells m cs' rs1 with
          | ((cs1, rs2), Ok vs) => ((c1 :: cs1, rs2), Ok (v :: vs))
          | ((cs1, rs2), Raise x) => ((c1 :: cs1, rs2), Raise x)
          end
      | ((c1, rs1), Raise x) => ((c1 :: cs', rs1), Raise x)
      end
  end.

(** A cell that stands outside a 5 x 5 grid. *)
Definition stray_cell : Cell := set_pos (7, 0) sample_cell.

(** A cell that [live] can run on a grid of side [n]: the shapes of
    [well_shaped], and the cell's own grid size is [n], at least 1. *)
Definition runnable (n : nat) (c : Cell) : Prop :=
  well_shaped c /\ c_grid_size c = n /\ (1 <= n)%nat.

(** What [think] needs of its arithmetic.  With [z] the value handed to
    [np.exp]: the denominator [1 + exp z] is at least 1, and at least 2 when
    [z] is not negative; [1 / d] lies between 0 and 1 for [d] from 1 on, and
    is at most 1/2 for [d] from 2 on.  Exact arithmetic has these
    properties, and so has float64 with round-to-nearest, where 1/2, 1 and 2
    are floats and rounding keeps the order. *)
Record lawful (A : arith) : Prop := {
  den_ge_1 : forall z, 1 <= fl_add A 1 (fl_exp A z);
  den_ge_2 : forall z, 0 <= z -> 2 <= fl_add A 1 (fl_exp A z);
  div_unit : forall d, 1 <= d -> 0 <= fl_div A 1 d <= 1;
  div_half : forall d, 2 <= d -> fl_div A 1 d <= 1 / 2
}.

(** The value [think] stores in a channel, from the row of weights of that
    channel and the sensors. *)
Definition channel (A : arith) (row s : list R) : R :=
  np_round (fl_div A 1 (fl_add A 1
              (fl_exp A (fl_dot A (map (Rmult (-1)) row) s)))).

(** The weighted sum of a row and the sensors, as a sum of real numbers. *)
Definition weighted_sum (row s : list R) : R :=
  fold_right Rplus 0 (map (fun ws => fst ws * snd ws) (combine row s)).

(** Two cells that differ at most in their position; two cells that differ
    at most in their actions. *)
Definition same_but_pos (c c' : Cell) : Prop :=
  c_grid_size c' = c_grid_size c /\ alive c' = alive c /\ age c' = age c /\
  phys_dna c' = phys_dna c /\ brain_dna c' = brain_dna c /\
  death_age c' = death_age c /\ sex c' = sex c /\
  strength c' = strength c /\ velocity c' = velocity c /\
  sensors c' = sensors c /\ actions c' = actions c.

Definition same_but_actions (c c' : Cell) : Prop :=
  c_grid_size c' = c_grid_size c /\ alive c' = alive c /\ age c' = age c /\
  phys_dna c' = phys_dna c /\ brain_dna c' = brain_dna c /\
  death_age c' = death_age c /\ sex c' = sex c /\
  strength c' = strength c /\ velocity c' = velocity c /\
  pos c' = pos c /\ sensors c' = sensors c.

(** A cell with weights and sensors that are not all zero: its four
    weighted sums are 1, -1, 1 and 0. *)
Definition keen_cell : Cell :=
  {| c_grid_size := 5; alive := true; age := 0;
     phys_dna := [3; 0; 1; 1];
     brain_dna := {| m_rows := [[1; 0; 0; 0; 0]; [-1; 0; 0; 0; 0];
                                [0; 2; 0; 0; -1]; [0; 0; 0; 0; 0]];
                     m_cols := 5 |};
     death_age := 3; sex := 0; strength := 1; velocity := 1;
     pos := (2, 0);
     sensors := Vec [1; 1; 0; 0; 1];
     actions := Vec [0; 0; 0; 0] |}.

(** An arithmetic that is exact except for [exp] close to 0, where it
    gives 1 as float64 does: within 2^-54 of 0 the exponential is nearer to
    1 than to any other float.  [faint_cell] has one weighted sum of 2^-60
    and three of 0. *)
Definition snapping : arith :=
  {| fl_dot := dot;
     fl_exp := fun z =>
       if Rle_dec (Rabs z) (1 / 18014398509481984) then 1 else exp z;
     fl_add := Rplus; fl_div := Rdiv |}.

Definition faint_cell : Cell :=
  {| c_grid_size := 5; alive := true; age := 0;
     phys_dna := [3; 0; 1; 1];
     brain_dna := {| m_rows := [[1 / 1152921504606846976; 0; 0; 0; 0];
                                [0; 0; 0; 0; 0]; [0; 0; 0; 0; 0];
                                [0; 0; 0; 0; 0]];
                     m_cols := 5 |};
     death_age := 3; sex := 0; strength := 1; velocity := 1;
     pos := (2, 0);
     sensors := Vec [1; 0; 0; 0; 0];
     actions := Vec [0; 0; 0; 0] |}.

(** Names on which [setattr(environment, name, f)] raises instead of
    binding [f]: the interpreter keeps them for itself. *)
Definition Environment_fixed_names : list string :=
  ["__class__"; "__dict__"; "__weakref__"]%string.

(** A rule name that [setattr] binds next to the environment's own
    attributes, replacing none of them. *)
Definition free_name (name : string) : Prop :=
  ~ In name (@Environment_own_names) /\
  ~ In name Environment_fixed_names.

Section Vocabulary.

Variable fn : Type.
Variable simrules : list (string * fn).
Variable cellrules : list (string * fn).
Variable sim_call : fn -> M (EnvSt fn) unit.

Definition with_env (f : Environment fn -> Environment fn) (s : EnvSt fn)
  : EnvSt fn :=
  {| env := f (env s); rng := rng s; out := out s; invoked := invoked s |}.

(** The two writes of [update] between and after its broadcasts. *)
Definition tick (e0 : Environment fn) : Environment fn :=
  set_clock (clock e0 + 1) e0.

Definition prune (e0 : Environment fn) : Environment fn :=
  set_cells (filter alive (cells e0)) e0.

Definition calls_of (name : string) (from n : nat) : list (nat * string) :=
  map (fun k => (k, name)) (seq from n).

Definition after_broadcast (s : EnvSt fn) (cs : list Cell)
           (rs : RandomState) (log : list (nat * string)) : EnvSt fn :=
  {| env := set_cells cs (env s); rng := rs; out := out s;
     invoked := invoked s ++ log |}.



(** The iterations of the loop of [main] with no handler around them:
    the first exception, of any class, ends the sequence. *)
Fixpoint iterations (sr : string * fn) (idx : list nat)
  : M (EnvSt fn) unit :=
  match idx with
  | [] => ret tt
  | i :: rest =>
      emit (Printed ("iteration n. " ++ string_of_nat i)) ;;
      iteration sim_call sr ;;
      iterations sr rest
  end.

Definition print_line (line : string) (s : EnvSt fn) : EnvSt fn :=
  {| env := env s; rng := rng s; out := out s ++ [Printed line];
     invoked := invoked s |}.

(** What [get_grid] has written when it gives up on an empty collection. *)
Definition wiped (s : EnvSt fn) : EnvSt fn :=
  with_env (fun e0 => set_pos_map (PyPairs [])
                        (set_grid (np_zeros (size e0)) e0)) s.

Definition print_dead (s : EnvSt fn) : EnvSt fn :=
  {| env := env s; rng := rng s; out := out s ++ [Printed "Dead"];
     invoked := invoked s |}.

End Vocabulary.

Arguments tick {fn} e0.
Arguments prune {fn} e0.

(** * Properties *)

(** ** Numeric helpers *)

Lemma sigmoid_range (x : R) : 0 < sigmoid x < 1.
Proof.
  unfold sigmoid.
  pose proof (exp_pos (- x)) as He.
  assert (Hd : 0 < 1 + exp (- x)) by lra.
  split.
  - apply Rdiv_lt_0_compat; lra.
  - apply Rmult_lt_reg_r with (1 + exp (- x)); [exact Hd|].
    unfold Rdiv. rewrite Rmult_assoc, Rinv_l by lra. lra.
Qed.

Lemma Int_part_unit (s : R) : 0 <= s < 1 -> Int_part s = 0%Z.
Proof.
  intros Hs. symmetry. apply Int_part_spec. simpl. lra.
Qed.

Lemma np_round_unit (s : R) : 0 < s < 1 -> np_round s = 0 \/ np_round s = 1.
Proof.
  intros Hs. unfold np_round.
  rewrite (Int_part_unit (s := s)) by lra.
  destruct (Rlt_dec (s - 0) (1 / 2)); [now left|].
  destruct (Rlt_dec (1 / 2) (s - 0)); [now right|].
  now left.
Qed.

Lemma sigmoid_half (x : R) :
  (0 < x -> 1 / 2 < sigmoid x) /\ (x <= 0 -> sigmoid x <= 1 / 2).
Proof.
  unfold sigmoid. pose proof (exp_pos (- x)) as He. split; intros Hx.
  - assert (H1 : exp (- x) < 1).
    { rewrite <- exp_0. apply exp_increasing. lra. }
    apply Rmult_lt_reg_r with (1 + exp (- x)); [lra|].
    unfold Rdiv at 2. rewrite Rmult_assoc, Rinv_l by lra. lra.
  - assert (H1 : 1 <= exp (- x)).
    { rewrite <- exp_0. destruct Hx as [Hx| ->].
      - left. apply exp_increasing. lra.
      - right. f_equal. lra. }
    apply Rmult_le_reg_r with (1 + exp (- x)); [lra|].
    unfold Rdiv at 1. rewrite Rmult_assoc, Rinv_l by lra. lra.
Qed.

Lemma np_round_sigmoid (x : R) :
  np_round (sigmoid x) = if Rlt_dec 0 x then 1 else 0.
Proof.
  pose proof (sigmoid_range x) as Hs. destruct (sigmoid_half x) as [Hp Hn].
  unfold np_round. rewrite (Int_part_unit (s := sigmoid x)) by lra.
  destruct (Rlt_dec 0 x) as [Hx|Hx].
  - specialize (Hp Hx).
    destruct (Rlt_dec (sigmoid x - 0) (1 / 2)); [lra|].
    destruct (Rlt_dec (1 / 2) (sigmoid x - 0)); [reflexivity|lra].
  - assert (Hle : x <= 0) by lra. specialize (Hn Hle).
    destruct (Rlt_dec (sigmoid x - 0) (1 / 2)); [reflexivity|].
    destruct (Rlt_dec (1 / 2) (sigmoid x - 0)); [lra|reflexivity].
Qed.

Lemma np_round_closed_unit (s : R) :
  0 <= s <= 1 -> np_round s = 0 \/ np_round s = 1.
Proof.
  intros [H0 [H1|H1]].
  - destruct H0 as [H0|H0]; [apply np_round_unit; lra|].
    subst s. left. unfold np_round.
    rewrite (Int_part_unit (s := 0)) by lra.
    destruct (Rlt_dec (0 - 0) (1 / 2)); [reflexivity|lra].
  - subst s. right. unfold np_round.
    assert (E : Int_part 1 = 1%Z) by (symmetry; apply Int_part_spec; lra).
    rewrite E. destruct (Rlt_dec (1 - 1) (1 / 2)); [reflexivity|lra].
Qed.

Lemma np_round_low (s : R) : 0 <= s <= 1 / 2 -> np_round s = 0.
Proof.
  intros Hs. unfold np_round.
  rewrite (Int_part_unit (s := s)) by lra.
  destruct (Rlt_dec (s - 0) (1 / 2)); [reflexivity|].
  destruct (Rlt_dec (1 / 2) (s - 0)); [lra|reflexivity].
Qed.

Lemma dot_neg (u v : list R) : dot (map (Rmult (-1)) u) v = - dot u v.
Proof.
  revert v. induction u as [|a u IH]; intros [|b v]; simpl; try lra.
  rewrite IH. lra.
Qed.

Lemma clamp_bounds (hi t : R) : 0 <= hi -> 0 <= clamp hi t <= hi.
Proof.
  intros Hhi. unfold clamp, Rmax, Rmin.
  destruct (Rle_dec t hi); destruct (Rle_dec _ 0); lra.
Qed.

(** ** Cell.move *)

Lemma move_eval (c : Cell) (a0 a1 a2 a3 : R) (rest : list R) :
  ravel (actions c) = a0 :: a1 :: a2 :: a3 :: rest ->
  let hi := IZR (Z.of_nat (c_grid_size c) - 1) in
  move c =
  (set_pos (clamp hi (fst (pos c) + velocity c * (a0 - a2)),
            clamp hi (snd (pos c) + velocity c * (a1 - a3))) c, Ok tt).
Proof.
  intros Ha hi. unfold move, bind, get, lift_result, put.
  rewrite Ha. cbn [firstn skipn broadcast length Nat.eqb map2 map reduce2].
  unfold clamp. fold hi.
  rewrite Rmult_1_l.
  rewrite (Rmult_comm (a0 - a2)), (Rmult_comm (a1 - a3)).
  reflexivity.
Qed.

(** C4. With an actions vector of at least four channels and a grid of at
    least one square, [move] returns; the position of the cell it leaves is
    the old position plus velocity times (actions[0]-actions[2],
    actions[1]-actions[3]), cut on each axis on its own to at most
    grid_size-1 and then to at least 0; both coordinates of that position
    lie in [0, grid_size-1]; every other field of the cell is as before. *)
Theorem move_clamped (c : Cell) (a0 a1 a2 a3 : R) (rest : list R) :
  ravel (actions c) = a0 :: a1 :: a2 :: a3 :: rest ->
  (1 <= c_grid_size c)%nat ->
  let hi := IZR (Z.of_nat (c_grid_size c) - 1) in
  let c' := fst (move c) in
  snd (move c) = Ok tt /\
  fst (pos c') = Rmax (Rmin (fst (pos c) + velocity c * (a0 - a2)) hi) 0 /\
  snd (pos c') = Rmax (Rmin (snd (pos c) + velocity c * (a1 - a3)) hi) 0 /\
  0 <= fst (pos c') <= hi /\ 0 <= snd (pos c') <= hi /\
  same_but_pos c c'.
Proof.
  intros Ha Hg hi c'.
  assert (Hhi : 0 <= hi).
  { unfold hi. apply IZR_le. lia. }
  subst c'. unfold move, bind, get, lift_result, put.
  rewrite Ha. cbn [firstn skipn broadcast length Nat.eqb map2 map reduce2].
  fold hi. rewrite Rmult_1_l.
  rewrite (Rmult_comm (a0 - a2)), (Rmult_comm (a1 - a3)).
  cbn [fst snd pos set_pos].
  split; [reflexivity|]. split; [reflexivity|]. split; [reflexivity|].
  split; [apply (clamp_bounds (fst (pos c) + velocity c * (a0 - a2)) Hhi)|].
  split; [apply (clamp_bounds (snd (pos c) + velocity c * (a1 - a3)) Hhi)|].
  unfold same_but_pos. cbn. tauto.
Qed.

Lemma move_clamped_witness :
  snd (move sample_cell) = Ok tt /\
  fst (pos (fst (move sample_cell))) = Rmax (Rmin (2 + 1 * (1 - 0)) 4) 0 /\
  snd (pos (fst (move sample_cell))) = Rmax (Rmin (0 + 1 * (0 - 1)) 4) 0 /\
  0 <= fst (pos (fst (move sample_cell))) <= 4 /\
  0 <= snd (pos (fst (move sample_cell))) <= 4 /\
  same_but_pos sample_cell (fst (move sample_cell)).
Proof.
  apply (@move_clamped sample_cell 1 0 0 1 []).
  - reflexivity.
  - simpl. lia.
Defined.

(** ** Cell.think *)

Lemma ravel_same_shape (v : ndarray) (l : list R) :
  ravel (same_shape v l) = l.
Proof. destruct v; reflexivity. Qed.

Lemma think_unfold (A : arith) (c : Cell) :
  m_cols (brain_dna c) = length (ravel (sensors c)) ->
  think A c =
  (set_actions
     (same_shape (sensors c)
        (map (fun row => channel A row (ravel (sensors c)))
             (m_rows (brain_dna c)))) c, Ok tt).
Proof.
  intros Hshape. unfold think, bind, get, lift_result, put, np_matmul.
  cbn [m_scale m_cols m_rows]. rewrite Hshape, Nat.eqb_refl.
  f_equal. f_equal.
  destruct (sensors c) as [l|l]; cbn [nd_map same_shape ravel];
    rewrite !map_map; reflexivity.
Qed.

Lemma dot_weighted_sum (u v : list R) : dot u v = weighted_sum u v.
Proof.
  unfold weighted_sum. revert v.
  induction u as [|a u IH]; intros [|b v]; cbn; try reflexivity.
  now rewrite IH.
Qed.

Lemma channel_exact (row s : list R) :
  channel exact row s = np_round (sigmoid (weighted_sum row s)).
Proof.
  unfold channel, sigmoid. cbn [exact fl_dot fl_exp fl_add fl_div].
  now rewrite dot_neg, dot_weighted_sum.
Qed.

Lemma exact_lawful : lawful exact.
Proof.
  constructor; cbn [exact fl_exp fl_add fl_div].
  - intros z. pose proof (exp_pos z). lra.
  - intros z [Hz|Hz].
    + pose proof (exp_increasing 0 z Hz) as H. rewrite exp_0 in H. lra.
    + subst z. rewrite exp_0. lra.
  - intros d Hd. split.
    + unfold Rdiv. rewrite Rmult_1_l. left. apply Rinv_0_lt_compat. lra.
    + apply Rmult_le_reg_r with d; [lra|].
      unfold Rdiv. rewrite Rmult_assoc, Rinv_l by lra. lra.
  - intros d Hd. apply Rmult_le_reg_r with d; [lra|].
    unfold Rdiv at 1. rewrite Rmult_assoc, Rinv_l by lra. lra.
Qed.

Lemma think_eval (c : Cell) :
  m_cols (brain_dna c) = length (ravel (sensors c)) ->
  think exact c =
  (set_actions
     (same_shape (sensors c)
        (map (fun row => np_round (sigmoid (dot row (ravel (sensors c)))))
             (m_rows (brain_dna c)))) c, Ok tt).
Proof.
  intros Hshape. rewrite (think_unfold exact c Hshape).
  do 3 f_equal. apply map_ext. intros row.
  now rewrite channel_exact, dot_weighted_sum.
Qed.

(** A cell built by [Cell.__init__] has a weight matrix of [num_actions]
    rows and [num_sensors] columns. *)
Lemma reshape_length (rows cols : nat) (l : list R) :
  length (reshape rows cols l) = rows.
Proof.
  revert l. induction rows as [|r IH]; intros l; simpl; [reflexivity|].
  now rewrite IH.
Qed.

Lemma Cell_init_shape (p : Params) (rs rs' : RandomState) (c : Cell) :
  Cell_init p rs = (rs', Ok c) ->
  length (m_rows (brain_dna c)) = num_actions p /\
  m_cols (brain_dna c) = num_sensors p.
Proof.
  unfold Cell_init, bind, rs_take, ret. cbn [fst snd].
  intros H. inversion H; subst. cbn [brain_dna m_rows m_cols].
  now rewrite reshape_length.
Qed.

(** C6. In every arithmetic with the properties of [lawful], float64 and
    exact arithmetic among them: when the weight matrix has as many columns
    as there are sensors, [think] returns; the actions of the cell it leaves
    have one entry per row of the matrix (num_actions entries on a cell
    built by the constructor); entry i is
    round(1 / (1 + exp((-1 * row i) . sensors))), that is
    round(sigmoid(row i . sensors)), computed in that arithmetic; every
    entry is exactly 0 or 1; and every other field of the cell is as
    before.  In exact arithmetic entry i is round(sigmoid(s)) for s the
    sum over j of brain_dna[i][j] * sensors[j]. *)
Theorem think_binary (A : arith) (c : Cell) :
  lawful A ->
  m_cols (brain_dna c) = length (ravel (sensors c)) ->
  let c' := fst (think A c) in
  snd (think A c) = Ok tt /\
  length (ravel (actions c')) = length (m_rows (brain_dna c)) /\
  (forall i row,
     nth_error (m_rows (brain_dna c)) i = Some row ->
     nth_error (ravel (actions c')) i =
     Some (np_round
             (fl_div A 1
                (fl_add A 1
                   (fl_exp A (fl_dot A (map (Rmult (-1)) row)
                                       (ravel (sensors c)))))))) /\
  Forall (fun a => a = 0 \/ a = 1) (ravel (actions c')) /\
  same_but_actions c c' /\
  (A = exact ->
   forall i row,
     nth_error (m_rows (brain_dna c)) i = Some row ->
     nth_error (ravel (actions c')) i =
     Some (np_round (sigmoid (weighted_sum row (ravel (sensors c)))))) /\
  (forall p rs rs',
     Cell_init p rs = (rs', Ok c) ->
     length (m_rows (brain_dna c)) = num_actions p).
Proof.
  intros HA Hshape c'. subst c'.
  assert (E : think A c =
    (set_actions
       (same_shape (sensors c)
          (map (fun row =>
                  np_round (fl_div A 1 (fl_add A 1 (fl_exp A
                    (fl_dot A (map (Rmult (-1)) row) (ravel (sensors c)))))))
               (m_rows (brain_dna c)))) c, Ok tt)).
  { unfold think, bind, get, lift_result, put, np_matmul.
    cbn [m_scale m_cols m_rows]. rewrite Hshape, Nat.eqb_refl.
    f_equal. f_equal.
    destruct (sensors c) as [l|l]; cbn [nd_map same_shape ravel];
      rewrite !map_map; reflexivity. }
  rewrite E. cbn [fst snd actions set_actions].
  assert (Hs : forall v l, ravel (same_shape v l) = l)
    by (intros [?|?] ?; reflexivity).
  rewrite Hs.
  split; [reflexivity|]. split; [apply length_map|].
  split.
  { intros i row Hrow. now rewrite nth_error_map, Hrow. }
  split.
  { apply Forall_forall. intros a Ha.
    apply in_map_iff in Ha. destruct Ha as [row [<- _]].
    apply np_round_closed_unit. apply (div_unit HA), (den_ge_1 HA). }
  split; [unfold same_but_actions; cbn; tauto|].
  split.
  { intros -> i row Hrow. rewrite nth_error_map, Hrow. cbn [option_map].
    f_equal. f_equal. cbn [exact fl_dot fl_exp fl_add fl_div].
    assert (Hd : forall u v, dot (map (Rmult (-1)) u) v = - weighted_sum u v).
    { unfold weighted_sum.
      induction u as [|a u IH]; intros [|b v]; cbn; try lra.
      rewrite IH. lra. }
    rewrite Hd. reflexivity. }
  intros p rs rs' H. now destruct (Cell_init_shape H).
Qed.

Lemma think_binary_witness :
  snd (think exact keen_cell) = Ok tt /\
  ravel (actions (fst (think exact keen_cell))) = [1; 0; 1; 0].
Proof.
  destruct (@think_binary exact keen_cell exact_lawful eq_refl)
    as (Hok & Hlen & _ & _ & _ & Hex & _).
  split; [exact Hok|].
  pose proof (Hex eq_refl 0%nat _ eq_refl) as H0.
  pose proof (Hex eq_refl 1%nat _ eq_refl) as H1.
  pose proof (Hex eq_refl 2%nat _ eq_refl) as H2.
  pose proof (Hex eq_refl 3%nat _ eq_refl) as H3.
  destruct (ravel (actions (fst (think exact keen_cell))))
    as [|x0 [|x1 [|x2 [|x3 [|x4 l]]]]]; try discriminate Hlen.
  cbn [nth_error] in H0, H1, H2, H3.
  injection H0 as ->. injection H1 as ->. injection H2 as ->.
  injection H3 as ->.
  rewrite !np_round_sigmoid. unfold weighted_sum.
  cbn [keen_cell sensors ravel combine map fold_right fst snd].
  repeat match goal with
         | |- context [Rlt_dec 0 ?x] => destruct (Rlt_dec 0 x); try lra
         end.
  reflexivity.
Defined.


Lemma Cell_init_fields (p : Params) (rs : RandomState) :
  exists c rs',
    Cell_init p rs = (rs', Ok c) /\
    alive c = true /\ age c = 0%Z /\
    c_grid_size c = grid_size p /\
    length (m_rows (brain_dna c)) = num_actions p /\
    m_cols (brain_dna c) = num_sensors p /\
    length (ravel (sensors c)) = num_sensors p /\
    length (ravel (actions c)) = num_actions p.
Proof.
  unfold Cell_init, bind, rs_take, ret. cbn.
  eexists. eexists. split; [reflexivity|]. cbn.
  rewrite reshape_length, !repeat_length. repeat split; reflexivity.
Qed.

(** ** Cell.update_sensors *)

Lemma update_sensors_eval (c : Cell) (t : Z) (pos_map : pyval)
      (rs : RandomState) :
  update_sensors (PyInt t) pos_map (c, rs) =
    ((set_sensors (Vec [1;
                        rs_sample rs (rs_cursor rs);
                        sin (PI * IZR t / 10);
                        fst (pos c) / INR (c_grid_size c);
                        snd (pos c) / INR (c_grid_size c)]) c,
      {| rs_cursor := rs_cursor rs + 1; rs_sample := rs_sample rs |}), Ok tt).
Proof. reflexivity. Qed.

(** C7, as amended.  For every cell, integer clock and position map,
    [update_sensors] returns and sets the sensors to
    [1, next random sample, sin(pi*clock/10), pos.x/grid_size,
    pos.y/grid_size]; the vector has five entries whatever [num_sensors]
    is, and exactly one sample is consumed. *)
Theorem update_sensors_vector (c : Cell) (t : Z) (pos_map : pyval)
        (rs : RandomState) :
  let s := Vec [1;
                rs_sample rs (rs_cursor rs);
                sin (PI * IZR t / 10);
                fst (pos c) / INR (c_grid_size c);
                snd (pos c) / INR (c_grid_size c)] in
  update_sensors (PyInt t) pos_map (c, rs) =
    ((set_sensors s c,
      {| rs_cursor := rs_cursor rs + 1; rs_sample := rs_sample rs |}), Ok tt)
  /\ length (ravel s) = 5%nat
  /\ length (ravel (sensors (set_sensors s c))) = 5%nat.
Proof.
  intros s. split; [apply update_sensors_eval|]. split; reflexivity.
Qed.

(** C7 does not hold as stated: a cell configured with three sensors has
    five after [update_sensors]. *)
Lemma update_sensors_length_counterexample :
  exists c rs c' rs',
    Cell_init small_params zero_rng = (rs, Ok c) /\
    length (ravel (sensors c)) = num_sensors small_params /\
    update_sensors (PyInt 0) (PyInt 0) (c, rs) = ((c', rs'), Ok tt) /\
    length (ravel (sensors c')) = 5%nat /\
    length (ravel (sensors c')) <> num_sensors small_params.
Proof.
  unfold Cell_init, bind, rs_take, ret. cbn [fst snd].
  do 4 eexists. split; [reflexivity|]. split; [reflexivity|].
  split; [reflexivity|]. split; [reflexivity|]. cbn. lia.
Qed.

(** ** Cell.live *)

Lemma set_pos_same (c : Cell) : set_pos (pos c) c = c.
Proof. now destruct c. Qed.

Lemma set_actions_same (c : Cell) : set_actions (actions c) c = c.
Proof. now destruct c. Qed.

Lemma move_frame (c : Cell) : exists p, fst (move c) = set_pos p c.
Proof.
  unfold move, bind, get, lift_result, put, raise.
  destruct (broadcast Rminus _ _) as [d|x];
    [|exists (pos c); now rewrite set_pos_same].
  destruct (broadcast Rplus _ _) as [s|x];
    [|exists (pos c); now rewrite set_pos_same].
  destruct (reduce2 Rmin _ _) as [lo|x];
    [|exists (pos c); now rewrite set_pos_same].
  destruct (reduce2 Rmax _ _) as [r|x];
    [|exists (pos c); now rewrite set_pos_same].
  destruct r as [|x [|y [|z r]]];
    try (exists (pos c); now rewrite set_pos_same).
  now exists (x, y).
Qed.

Lemma think_frame (A : arith) (c : Cell) :
  exists a, fst (think A c) = set_actions a c.
Proof.
  unfold think, bind, get, lift_result, put.
  destruct (np_matmul _ _) as [z|x].
  - eexists. reflexivity.
  - exists (actions c). now rewrite set_actions_same.
Qed.

(** [live] spelled out as the nest of outcomes of its five statements. *)
Lemma live_unfold (t : Z) (pos_map : pyval) (c : Cell) (rs : RandomState) :
  live (PyInt t) pos_map (c, rs) =
  match move c with
  | (c1, Raise x) => ((c1, rs), Raise x)
  | (c1, Ok _) =>
      let s := Vec [1; rs_sample rs (rs_cursor rs); sin (PI * IZR t / 10);
                    fst (pos c1) / INR (c_grid_size c1);
                    snd (pos c1) / INR (c_grid_size c1)] in
      let rs' := {| rs_cursor := rs_cursor rs + 1;
                    rs_sample := rs_sample rs |} in
      match think exact (set_sensors s c1) with
      | (c3, Raise x) => ((c3, rs'), Raise x)
      | (c3, Ok _) =>
          let c4 := set_age (age c3 + 1) c3 in
          if Rle_dec (death_age c4) (IZR (age c4))
          then ((set_alive false c4, rs'), Ok tt)
          else ((c4, rs'), Ok tt)
      end
  end.
Proof.
  unfold live. unfold bind at 1. unfold on_self at 1. unfold zoom at 1.
  cbn [fst snd]. destruct (move c) as [c1 [u|x]]; [|reflexivity].
  unfold bind at 1. rewrite (update_sensors_eval c1 t pos_map rs).
  unfold bind at 1. unfold on_self at 1. unfold zoom at 1. cbn [fst snd].
  destruct (think exact _) as [c3 [u'|x]]; [|reflexivity].
  unfold bind, on_self, zoom, modify, get, ret. cbn [fst snd].
  destruct (Rle_dec _ _); reflexivity.
Qed.

Lemma live_step (t : Z) (pos_map : pyval) (c : Cell) (rs : RandomState) :
  step_spec c (live (PyInt t) pos_map (c, rs)).
Proof.
  unfold step_spec. rewrite live_unfold.
  destruct (move_frame c) as [p Hp].
  destruct (move c) as [c1 [u|x]]; cbn [fst] in Hp; subst c1.
  2:{ cbn. repeat split; try lia; try tauto; discriminate. }
  cbv zeta.
  match goal with |- context [think exact ?c2] =>
    destruct (think_frame exact c2) as [a Ha]; destruct (think exact c2) as [c3 [u'|x]]
  end; cbn [fst] in Ha; subst c3.
  2:{ cbn. repeat split; try lia; try tauto; discriminate. }
  destruct (Rle_dec _ _) as [Hd|Hd]; cbn in Hd |- *.
  - repeat split; intros; try lia; try tauto.
  - repeat split; intros; try lia; try tauto; try congruence.
Qed.

Lemma live_returns (t : Z) (pos_map : pyval) (c : Cell) (rs : RandomState) :
  well_shaped c ->
  snd (live (PyInt t) pos_map (c, rs)) = Ok tt /\
  well_shaped (fst (fst (live (PyInt t) pos_map (c, rs)))).
Proof.
  intros (Hc & Hr & Ha). rewrite live_unfold.
  destruct (ravel (actions c)) as [|a0 [|a1 [|a2 [|a3 rest]]]] eqn:Hact;
    cbn in Ha; try lia.
  rewrite (move_eval c Hact). cbv zeta.
  match goal with |- context [think exact ?c2] =>
    rewrite (think_eval c2) by (cbn; exact Hc)
  end.
  assert (Hs : forall v l, ravel (same_shape v l) = l)
    by (intros [?|?] ?; reflexivity).
  destruct (Rle_dec _ _); cbn [fst snd]; (split; [reflexivity|]);
    unfold well_shaped; cbn; rewrite length_map; auto.
Qed.

Lemma states_length (ins : list (Z * pyval)) (st : CellSt) :
  length (states ins st) = S (length ins).
Proof.
  unfold states. cbn. f_equal. rewrite length_map.
  revert st. induction ins as [|[t pm] ins IH]; intros st; cbn;
    [reflexivity|now rewrite IH].
Qed.

Lemma live_run_step (ins : list (Z * pyval)) (st : CellSt) (d : Cell)
      (dr : CellSt * result unit) (k : nat) :
  (k < length ins)%nat ->
  step_spec (nth k (states ins st) d) (nth k (live_run ins st) dr) /\
  nth (S k) (states ins st) d = fst (fst (nth k (live_run ins st) dr)).
Proof.
  revert st k. induction ins as [|[t pm] ins IH]; intros st k Hk;
    [cbn in Hk; lia|].
  destruct k as [|k].
  - cbn. split; [|reflexivity]. destruct st as [c rs]. apply live_step.
  - cbn in Hk. assert (Hk' : (k < length ins)%nat) by lia.
    change (states ((t, pm) :: ins) st)
      with (fst st :: states ins (fst (live (PyInt t) pm st))).
    cbn [live_run nth]. apply IH, Hk'.
Qed.

Lemma live_run_returns (ins : list (Z * pyval)) (st : CellSt) :
  well_shaped (fst st) -> Forall (fun r => r = Ok tt) (outcomes ins st).
Proof.
  unfold outcomes. revert st.
  induction ins as [|[t pm] ins IH]; intros [c rs] Hw; cbn [live_run map];
    [constructor|].
  destruct (live_returns t pm rs Hw) as [Hok Hw'].
  constructor; [exact Hok|]. apply IH. exact Hw'.
Qed.

Lemma Cell_init_well_shaped (p : Params) (rs : RandomState) :
  num_sensors p = 5%nat -> (4 <= num_actions p)%nat ->
  exists c rs', Cell_init p rs = (rs', Ok c) /\ well_shaped c.
Proof.
  intros Hs Ha.
  destruct (Cell_init_fields p rs) as (c & rs' & E & _ & _ & _ & H1 & H2 & _ & H3).
  exists c, rs'. split; [exact E|]. unfold well_shaped.
  rewrite H1, H2, H3. auto.
Qed.

(** C5. Along any sequence of [live] calls on a cell: age never decreases
    and alive never goes from false to true, from one call to the next and
    between any two points of the sequence (so alive changes at most once);
    a call that returns adds exactly one to age and, on a cell that was
    alive, clears alive exactly when the new age has reached death_age; with
    the shapes of [well_shaped] every call returns; and a cell starts with
    alive true and age 0. *)
Theorem live_age_alive_contract (ins : list (Z * pyval)) (c0 : Cell)
        (rs : RandomState) :
  let st := states ins (c0, rs) in
  let res := outcomes ins (c0, rs) in
  length st = S (length ins) /\
  (forall k, (k < length ins)%nat ->
     let a := nth k st c0 in
     let b := nth (S k) st c0 in
     death_age b = death_age a /\
     (age a <= age b)%Z /\
     (alive a = false -> alive b = false) /\
     (nth k res (Ok tt) = Ok tt ->
      age b = (age a + 1)%Z /\
      (alive a = true ->
       (alive b = false <-> death_age a <= IZR (age b))))) /\
  (forall i j, (i <= j <= length ins)%nat ->
     (age (nth i st c0) <= age (nth j st c0))%Z /\
     (alive (nth i st c0) = false -> alive (nth j st c0) = false)) /\
  (well_shaped c0 -> Forall (fun r => r = Ok tt) res) /\
  (forall p rs0, exists c rs',
     Cell_init p rs0 = (rs', Ok c) /\ alive c = true /\ age c = 0%Z).
Proof.
  intros st res.
  assert (Hstep : forall k, (k < length ins)%nat ->
     let a := nth k st c0 in
     let b := nth (S k) st c0 in
     death_age b = death_age a /\
     (age a <= age b)%Z /\
     (alive a = false -> alive b = false) /\
     (nth k res (Ok tt) = Ok tt ->
      age b = (age a + 1)%Z /\
      (alive a = true ->
       (alive b = false <-> death_age a <= IZR (age b))))).
  { intros k Hk a b.
    destruct (live_run_step ins (c0, rs) c0 ((c0, rs), Ok tt) Hk) as [H1 H2].
    unfold step_spec in H1. fold st in H1, H2. fold a in H1. rewrite <- H2 in H1.
    fold b in H1. unfold res, outcomes.
    change (Ok tt) with (snd ((c0, rs), @Ok unit tt)) at 1.
    rewrite map_nth. exact H1. }
  split; [apply states_length|]. split; [exact Hstep|].
  split.
  - intros i j [Hij Hj]. induction j as [|j IH].
    + assert (i = 0)%nat by lia. subst i. split; [lia|auto].
    + destruct (Nat.eq_dec i (S j)) as [->|Hne]; [split; [lia|auto]|].
      assert (Hi : (i <= j)%nat) by lia. assert (Hj' : (j <= length ins)%nat) by lia.
      destruct (IH Hi Hj') as [A1 A2].
      destruct (Hstep j ltac:(lia)) as (_ & B1 & B2 & _).
      split; [lia|auto].
  - split; [intros Hw; apply live_run_returns; exact Hw|].
    intros p rs0. destruct (Cell_init_fields p rs0) as (c & rs' & E & Ha & Hg & _).
    exists c, rs'. auto.
Qed.

(** ** Environment.update *)

Section UpdateProperties.

Variable fn : Type.
Variable fn_repr : fn -> string.
Variable p : Params.
Variable o : object_type.

(** C3. On an environment with no live cell, [update] returns 0 (the
    "ended" value) and leaves the whole state as it was: the clock, the
    cell collection, and the log of per-cell calls, so nothing was
    broadcast. *)
Theorem update_empty (s : EnvSt fn) :
  cells (env s) = [] ->
  update fn_repr p o s = (s, Ok 0%Z).
Proof.
  intros Hc. unfold update, bind, get. rewrite Hc. reflexivity.
Qed.

(** The name [update] broadcasts first is [Environment.cellrule] put
    through an f-string.  Neither value the program stores there names an
    attribute of a cell. *)
Lemma Cell_getattr_default (c : Cell) :
  Cell_getattr o c "default" =
  Raise (AttributeError "'Cell' object has no attribute 'default'").
Proof. reflexivity. Qed.

Lemma Cell_getattr_entry (c : Cell) (r : string * fn) :
  Cell_getattr o c (py_format fn_repr (RuleEntry r)) =
  Raise (AttributeError
           ("'Cell' object has no attribute '"
              ++ py_format fn_repr (RuleEntry r) ++ "'")).
Proof. destruct r as [n f]. reflexivity. Qed.

Lemma call_all_unresolved (s : EnvSt fn) (c : Cell) (cs : list Cell)
      (name : string) (args : list pyval) (x : exn) :
  cells (env s) = c :: cs ->
  Cell_getattr o c name = Raise x ->
  call_all p o name args s = (s, Raise x).
Proof.
  intros Hc Hx. unfold call_all, bind, get, lift_result.
  rewrite Hc. cbn [resolve_all]. rewrite Hx. reflexivity.
Qed.

(** C2 fails on the code.  With at least one live cell and [cellrule]
    holding what [Environment.__init__] or [Simulation.__init__] stores in
    it, [update] raises [AttributeError] while it collects the methods of
    the first broadcast: no cell is called, the clock does not move, the
    collection is not filtered and no value is returned. *)
Theorem update_unresolved_rule (s : EnvSt fn) (c : Cell) (cs : list Cell) :
  cells (env s) = c :: cs ->
  cellrule (env s) = RuleName "default" \/
  (exists r, cellrule (env s) = RuleEntry r) ->
  update fn_repr p o s =
  (s, Raise (AttributeError
               ("'Cell' object has no attribute '"
                  ++ py_format fn_repr (cellrule (env s)) ++ "'"))).
Proof.
  intros Hc Hr. unfold update. unfold bind at 1. unfold get at 1.
  rewrite Hc. cbn [np_any existsb orb negb]. unfold bind at 1.
  rewrite (@call_all_unresolved s c cs _ _
             (AttributeError
                ("'Cell' object has no attribute '"
                   ++ py_format fn_repr (cellrule (env s)) ++ "'")) Hc).
  - reflexivity.
  - destruct Hr as [Hr|[r Hr]]; rewrite Hr.
    + reflexivity.
    + apply Cell_getattr_entry.
Qed.

End UpdateProperties.

Lemma update_empty_witness :
  update unit_repr one_run bare_object (state_of (env_of [])) = (state_of (env_of []), Ok 0%Z).
Proof.
  apply (@update_empty unit unit_repr one_run bare_object
           (state_of (env_of []))).
  reflexivity.
Defined.

Lemma update_unresolved_rule_witness :
  update unit_repr one_run bare_object (state_of (env_of [sample_cell])) =
  (state_of (env_of [sample_cell]),
   Raise (AttributeError "'Cell' object has no attribute 'default'")).
Proof.
  apply (@update_unresolved_rule unit unit_repr one_run bare_object
           (state_of (env_of [sample_cell])) sample_cell []).
  - reflexivity.
  - left. reflexivity.
Defined.

(** ** Environment.get_grid *)

Lemma set_nth_length {A : Type} (i : nat) (f : A -> A) (l : list A) :
  length (set_nth i f l) = length l.
Proof.
  revert i. induction l as [|x l IH]; intros [|i]; cbn; auto.
Qed.

Lemma nth_set_nth {A : Type} (i j : nat) (f : A -> A) (l : list A) (d : A) :
  (i < length l)%nat ->
  nth j (set_nth i f l) d = if Nat.eqb i j then f (nth j l d) else nth j l d.
Proof.
  revert i j. induction l as [|x l IH]; intros i j Hi; cbn in Hi; [lia|].
  destruct i as [|i], j as [|j]; cbn; auto.
  apply IH. lia.
Qed.

Lemma set_nth_Forall {A : Type} (P : A -> Prop) (i : nat) (f : A -> A)
      (l : list A) :
  (forall x, P x -> P (f x)) -> Forall P l -> Forall P (set_nth i f l).
Proof.
  intros Hf. revert i. induction l as [|x l IH]; intros i Hl; [destruct i; exact Hl|].
  inversion Hl; subst. destruct i; cbn; constructor; auto.
Qed.

Lemma row_sum_set (c : nat) (r : list Z) :
  binary_row r ->
  (row_sum (set_nth c (fun _ => 1%Z) r) <= row_sum r + 1)%Z.
Proof.
  revert c. induction r as [|x r IH]; intros c Hr; [destruct c; cbn; lia|].
  inversion Hr as [|? ? Hx Hr']; subst.
  unfold row_sum in *.
  destruct c as [|c]; cbn [set_nth fold_right].
  - destruct Hx; lia.
  - specialize (IH c Hr'). lia.
Qed.

Lemma grid_sum_set (g : list (list Z)) (rc : nat * nat) :
  binary_grid g ->
  (grid_sum (grid_set 1 g rc) <= grid_sum g + 1)%Z /\
  binary_grid (grid_set 1 g rc).
Proof.
  intros Hg. destruct rc as [r c]. unfold grid_set. cbn [fst snd]. split.
  - revert r. induction g as [|row g IH]; intros r; [destruct r; cbn; lia|].
    inversion Hg; subst.
    unfold grid_sum in *.
    destruct r as [|r]; cbn [set_nth map fold_right].
    + pose proof (@row_sum_set c row ltac:(assumption)). lia.
    + specialize (IH ltac:(assumption) r). lia.
  - apply set_nth_Forall; [|exact Hg].
    intros row Hrow. apply set_nth_Forall; [|exact Hrow]. intros; now right.
Qed.

Lemma grid_sum_fold (l : list (nat * nat)) (g : list (list Z)) :
  binary_grid g ->
  (grid_sum (fold_left (grid_set 1) l g) <= grid_sum g + Z.of_nat (length l))%Z
  /\ binary_grid (fold_left (grid_set 1) l g).
Proof.
  revert g. induction l as [|rc l IH]; intros g Hg; cbn [fold_left length].
  - split; [lia|exact Hg].
  - destruct (grid_sum_set rc Hg) as [H1 H2].
    destruct (IH _ H2) as [H3 H4]. split; [lia|exact H4].
Qed.

Lemma grid_set_square (n : nat) (g : list (list Z)) (rc : nat * nat) :
  square n g -> square n (grid_set 1 g rc).
Proof.
  intros [H1 H2]. unfold grid_set. split.
  - now rewrite set_nth_length.
  - apply set_nth_Forall; [|exact H2]. intros row Hrow.
    now rewrite set_nth_length.
Qed.

Lemma fold_square (n : nat) (l : list (nat * nat)) (g : list (list Z)) :
  square n g -> square n (fold_left (grid_set 1) l g).
Proof.
  revert g. induction l as [|rc l IH]; intros g Hg; cbn; [exact Hg|].
  apply IH, grid_set_square, Hg.
Qed.

Lemma grid_at_set (n : nat) (g : list (list Z)) (r0 c0 r c : nat) :
  square n g -> (r0 < n)%nat -> (c0 < n)%nat -> (r < n)%nat ->
  grid_at (grid_set 1 g (r0, c0)) r c =
  if Nat.eqb r0 r && Nat.eqb c0 c then 1%Z else grid_at g r c.
Proof.
  intros [H1 H2] Hr0 Hc0 Hr. unfold grid_at, grid_set. cbn [fst snd].
  rewrite nth_set_nth by lia.
  destruct (Nat.eqb r0 r) eqn:E; cbn [andb]; [|reflexivity].
  apply Nat.eqb_eq in E. subst r0.
  assert (Hlen : length (nth r g []) = n).
  { rewrite Forall_forall in H2. apply H2, nth_In. lia. }
  rewrite nth_set_nth by lia. reflexivity.
Qed.

Lemma np_zeros_square (n : nat) : square n (np_zeros n).
Proof.
  unfold square, np_zeros. split; [apply repeat_length|].
  apply Forall_forall. intros r Hr. apply repeat_spec in Hr. subst r.
  apply repeat_length.
Qed.

Lemma np_zeros_binary (n : nat) : binary_grid (np_zeros n).
Proof.
  unfold binary_grid, np_zeros. apply Forall_forall. intros r Hr.
  apply repeat_spec in Hr. subst r. apply Forall_forall. intros v Hv.
  apply repeat_spec in Hv. now left.
Qed.

Lemma np_zeros_sum (n : nat) : grid_sum (np_zeros n) = 0%Z.
Proof.
  unfold grid_sum, np_zeros.
  assert (Hrow : forall k, row_sum (repeat 0%Z k) = 0%Z).
  { induction k as [|k IH]; cbn; [reflexivity|]. unfold row_sum in IH. lia. }
  generalize n at 2. intros m. induction m as [|m IH]; cbn; [reflexivity|].
  rewrite Hrow. lia.
Qed.

Lemma np_zeros_at (n r c : nat) : grid_at (np_zeros n) r c = 0%Z.
Proof.
  unfold grid_at, np_zeros.
  destruct (Nat.lt_ge_cases r n) as [Hr|Hr].
  - rewrite nth_repeat_lt by exact Hr. apply nth_repeat.
  - rewrite (nth_overflow (repeat (repeat 0%Z n) n) [])
      by (rewrite repeat_length; exact Hr).
    now destruct c.
Qed.

Lemma binary_square_sum (n : nat) (g : list (list Z)) :
  square n g -> binary_grid g -> (grid_sum g <= Z.of_nat (n * n))%Z.
Proof.
  intros [H1 H2] Hb.
  assert (Hrow : forall r, binary_row r -> (row_sum r <= Z.of_nat (length r))%Z).
  { induction r as [|x r IH]; intros Hr; [cbn; lia|].
    inversion Hr as [|? ? Hx Hr']; subst. specialize (IH Hr').
    cbn [row_sum fold_right length]. unfold row_sum in IH.
    destruct Hx; lia. }
  assert (Hall : (grid_sum g <= Z.of_nat (length g * n))%Z).
  { clear H1. induction g as [|row g IH]; [cbn; lia|].
    inversion H2; subst. inversion Hb; subst.
    specialize (IH ltac:(assumption) ltac:(assumption)).
    pose proof (Hrow row ltac:(assumption)).
    unfold grid_sum in *. cbn [map fold_right length]. lia. }
  now rewrite H1 in Hall.
Qed.

Lemma grid_at_fold (n : nat) (l : list (nat * nat)) (g : list (list Z))
      (r c : nat) :
  square n g ->
  Forall (fun rc => (fst rc < n)%nat /\ (snd rc < n)%nat) l ->
  (r < n)%nat ->
  grid_at (fold_left (grid_set 1) l g) r c =
  if existsb (fun rc => Nat.eqb (fst rc) r && Nat.eqb (snd rc) c) l
  then 1%Z else grid_at g r c.
Proof.
  revert g. induction l as [|[r0 c0] l IH]; intros g Hg Hl Hr;
    cbn [fold_left existsb]; [reflexivity|].
  inversion Hl as [|? ? [Hr0 Hc0] Hl']; subst. cbn [fst snd] in *.
  rewrite IH by (auto using grid_set_square).
  rewrite (grid_at_set c Hg Hr0 Hc0 Hr).
  destruct (existsb _ l); [now rewrite orb_true_r|].
  now rewrite orb_false_r.
Qed.

Lemma norm_index_in (n : nat) (i : Z) :
  (0 <= i < Z.of_nat n)%Z -> norm_index n i = Ok (Z.to_nat i).
Proof.
  intros [H1 H2]. unfold norm_index.
  apply Z.leb_le in H1. apply Z.ltb_lt in H2. now rewrite H1, H2.
Qed.

Lemma norm_indices_in (n : nat) (idx : list (Z * Z)) :
  Forall (in_grid n) idx ->
  norm_indices n idx = Ok (map to_nat_pair idx).
Proof.
  induction 1 as [|[r c] idx [Hr Hc] _ IH]; cbn [norm_indices map];
    [reflexivity|].
  cbn [fst snd] in Hr, Hc.
  now rewrite (@norm_index_in n r Hr), (@norm_index_in n c Hc), IH.
Qed.

Lemma occupied_to_nat (n : nat) (pm : list (Z * Z)) (r c : nat) :
  Forall (in_grid n) pm ->
  existsb (fun rc => Nat.eqb (fst rc) r && Nat.eqb (snd rc) c)
          (map to_nat_pair pm) = occupied pm r c.
Proof.
  unfold occupied.
  induction 1 as [|[r0 c0] pm [Hr Hc] _ IH]; cbn [map existsb];
    [reflexivity|].
  rewrite IH. f_equal. cbn [to_nat_pair fst snd] in *. f_equal.
  - destruct (Nat.eqb_spec (Z.to_nat r0) r), (Z.eqb_spec r0 (Z.of_nat r));
      try reflexivity; lia.
  - destruct (Nat.eqb_spec (Z.to_nat c0) c), (Z.eqb_spec c0 (Z.of_nat c));
      try reflexivity; lia.
Qed.

Lemma py_int_range (n : nat) (x : R) :
  0 <= x <= IZR (Z.of_nat n - 1) -> (0 <= py_int x < Z.of_nat n)%Z.
Proof.
  intros [H0 H1]. unfold py_int.
  destruct (Rle_dec 0 x) as [_|Hn]; [|contradiction].
  destruct (base_Int_part x) as [B1 B2].
  split.
  - assert (H : (-1 < Int_part x)%Z) by (apply lt_IZR; lra). lia.
  - assert (H : (Int_part x <= Z.of_nat n - 1)%Z) by (apply le_IZR; lra). lia.
Qed.

Lemma py_int_IZR (z : Z) : py_int (IZR z) = z.
Proof.
  assert (H : forall k, Int_part (IZR k) = k).
  { intros k. symmetry. apply Int_part_spec. lra. }
  unfold py_int. destruct (Rle_dec 0 (IZR z)); [apply H|].
  rewrite <- opp_IZR, H. lia.
Qed.

Lemma on_grid_coords (n : nat) (cs : list Cell) :
  Forall (on_grid n) cs -> Forall (in_grid n) (map cell_coords cs).
Proof.
  induction 1 as [|c cs [Hx Hy] _ IH]; cbn [map]; constructor; [|exact IH].
  split; cbn [cell_coords fst snd]; apply py_int_range; assumption.
Qed.

Section GridProperties.

Variable fn : Type.

(** With no live cell [get_grid] resets the grid and the position map
    and then fails to unpack the empty map. *)
Lemma get_grid_empty (s : EnvSt fn) :
  cells (env s) = [] ->
  get_grid s =
  (with_env (fun e => set_pos_map (PyPairs [])
                        (set_grid (np_zeros (size e)) e)) s,
   Raise ValueError).
Proof.
  intros Hc. unfold get_grid, bind, on_env, modify, get, raise.
  cbn [env set_pos_map set_grid cells]. rewrite Hc. reflexivity.
Qed.

Lemma get_grid_returns (s : EnvSt fn) :
  cells (env s) <> [] ->
  Forall (on_grid (size (env s))) (cells (env s)) ->
  let pm := map cell_coords (cells (env s)) in
  get_grid s =
  (with_env (fun e => set_grid (marked (size (env s)) pm)
                        (set_pos_map (PyPairs pm) e)) s, Ok tt).
Proof.
  intros Hne Hon pm.
  pose proof (@on_grid_coords _ _ Hon) as Hin. fold pm in Hin.
  unfold get_grid, bind, on_env, modify, get, raise, lift_result,
    fancy_assign, marked.
  cbn [env set_pos_map set_grid cells size grid]. fold pm.
  destruct pm as [|rc pm'] eqn:Epm.
  - destruct (cells (env s)); [now elim Hne|discriminate].
  - rewrite (@norm_indices_in (size (env s)) _ Hin). reflexivity.
Qed.

(** C8, as amended.  Whatever the state, [get_grid] leaves a position
    map with the integer pair of each live cell, in order, and touches
    neither the cells nor the size.  With no live cell it raises
    [ValueError] and leaves the grid all zero.  With at least one live
    cell, every cell standing on the grid, it returns; the grid it leaves
    is size x size, holds 1 exactly at the occupied coordinates and 0
    elsewhere; and the sum of that grid is at most the number of live cells
    and at most size squared. *)
Theorem get_grid_occupancy (s : EnvSt fn) :
  let n := size (env s) in
  let pm := map (fun c => (py_int (fst (pos c)), py_int (snd (pos c))))
                (cells (env s)) in
  let s' := fst (get_grid s) in
  pos_map (env s') = PyPairs pm /\
  length pm = length (cells (env s)) /\
  cells (env s') = cells (env s) /\ size (env s') = n /\
  (cells (env s) = [] ->
   snd (get_grid s) = Raise ValueError /\ grid (env s') = np_zeros n) /\
  (cells (env s) <> [] ->
   Forall (on_grid n) (cells (env s)) ->
   snd (get_grid s) = Ok tt /\
   square n (grid (env s')) /\
   (forall r c, (r < n)%nat -> (c < n)%nat ->
      grid_at (grid (env s')) r c = if occupied pm r c then 1%Z else 0%Z) /\
   (grid_sum (grid (env s')) <= Z.of_nat (length (cells (env s))))%Z /\
   (grid_sum (grid (env s')) <= Z.of_nat (n * n))%Z).
Proof.
  intros n pm s'.
  change pm with (map cell_coords (cells (env s))) in *.
  clear pm. set (pm := map cell_coords (cells (env s))).
  assert (Hpm : pos_map (env s') = PyPairs pm /\
                cells (env s') = cells (env s) /\ size (env s') = n).
  { subst s' pm n. unfold get_grid, bind, on_env, modify, get, raise,
      lift_result.
    cbn [env set_pos_map set_grid cells size grid].
    destruct (map cell_coords (cells (env s))) as [|rc l]; [cbn; auto|].
    cbv zeta. destruct (fancy_assign _ _ _ _); cbn; auto. }
  destruct Hpm as (Hp & Hcs & Hsz).
  split; [exact Hp|]. split; [apply length_map|].
  split; [exact Hcs|]. split; [exact Hsz|]. split.
  - intros Hc. subst s' n.
    unfold get_grid, bind, on_env, modify, get, raise.
    cbn [env set_pos_map set_grid cells]. rewrite Hc. cbn. auto.
  - intros Hne Hon.
    pose proof (@on_grid_coords _ _ Hon) as Hin. fold pm n in Hin.
    assert (Hsq : square n (marked n pm))
      by apply fold_square, np_zeros_square.
    destruct (grid_sum_fold (map to_nat_pair pm) (np_zeros_binary n))
      as [Hsum Hbin].
    rewrite np_zeros_sum, length_map in Hsum.
    fold (marked n pm) in Hsum, Hbin.
    assert (E : get_grid s =
      ({| env := {| cellrule := cellrule (env s); clock := clock (env s);
                    size := n; ncell := ncell (env s);
                    grid := marked n pm; cells := cells (env s);
                    pos_map := PyPairs pm; bound := bound (env s) |};
          rng := rng s; out := out s; invoked := invoked s |}, Ok tt)).
    { unfold get_grid, bind, on_env, modify, get, raise, lift_result,
        fancy_assign, marked.
      cbn [env set_pos_map set_grid cells size grid]. fold pm n.
      destruct pm as [|rc pm'] eqn:Epm.
      - destruct (cells (env s)); [now elim Hne|discriminate].
      - rewrite (@norm_indices_in n _ Hin). reflexivity. }
    subst s'. rewrite E. cbn [fst snd env grid].
    split; [reflexivity|]. split; [exact Hsq|]. split; [|split].
    + intros r c Hr Hc. unfold marked.
      rewrite (grid_at_fold (n := n)); [| apply np_zeros_square | | exact Hr].
      * rewrite np_zeros_at. now rewrite (@occupied_to_nat n _ r c Hin).
      * clear - Hin. induction Hin as [|[r0 c0] l [H1 H2] _ IH]; cbn [map];
          constructor; [|exact IH].
        cbn [to_nat_pair fst snd] in *. lia.
    + subst pm. rewrite length_map in Hsum. lia.
    + apply binary_square_sum; assumption.
Qed.

End GridProperties.

Lemma get_grid_occupancy_witness :
  let s := state_of (env_of [sample_cell]) in
  let s' := fst (get_grid s) in
  snd (get_grid s) = Ok tt /\
  square 5 (grid (env s')) /\
  (forall r c, (r < 5)%nat -> (c < 5)%nat ->
     grid_at (grid (env s')) r c =
     if occupied [(py_int 2, py_int 0)] r c then 1%Z else 0%Z) /\
  (grid_sum (grid (env s')) <= 1)%Z /\
  (grid_sum (grid (env s')) <= 25)%Z.
Proof.
  apply (@get_grid_occupancy unit (state_of (env_of [sample_cell]))).
  - discriminate.
  - repeat constructor; cbn; lra.
Defined.

(** C8 does not hold as stated: with no live cell [get_grid] raises
    [ValueError], after it has reset the grid and the position map. *)
Lemma get_grid_empty_counterexample :
  cells (env (state_of (env_of []))) = [] /\
  snd (get_grid (state_of (env_of []))) = Raise ValueError /\
  grid (env (fst (get_grid (state_of (env_of []))))) = np_zeros 5 /\
  pos_map (env (fst (get_grid (state_of (env_of []))))) = PyPairs [].
Proof. repeat split; reflexivity. Qed.

(** ** Simulation.__init__ *)





Section SimulationProperties.

Variable fn : Type.
Variable simrules : list (string * fn).
Variable cellrules : list (string * fn).

Lemma resolve_None (w : string) (rules : list (string * fn)) :
  resolve w rules = None <-> ~ In w (map fst rules).
Proof.
  unfold resolve. induction rules as [|[n f] rules IH]; cbn [find map fst In].
  - tauto.
  - destruct (String.eqb_spec n w) as [->|Hne].
    + split; [discriminate|]. intros H. elim H. now left.
    + rewrite IH. tauto.
Qed.

Lemma resolve_Some (w : string) (rules : list (string * fn))
      (r : string * fn) :
  resolve w rules = Some r -> In r rules /\ fst r = w.
Proof.
  intros H. apply find_some in H. destruct H as [H1 H2].
  split; [exact H1|]. now apply String.eqb_eq.
Qed.

Lemma resolve_In (w : string) (rules : list (string * fn)) :
  In w (map fst rules) -> exists r, resolve w rules = Some r.
Proof.
  intros H. destruct (resolve w rules) as [r|] eqn:E; [now exists r|].
  apply resolve_None in E. contradiction.
Qed.

(** [Environment.__init__] returns, with [n_cell] fresh cells. *)
Lemma replicateM_Cell_init (p : Params) (n : nat) (rs : RandomState) :
  exists cs rs',
    replicateM n (Cell_init p) rs = (rs', Ok cs) /\ length cs = n.
Proof.
  revert rs. induction n as [|n IH]; intros rs.
  - exists [], rs. split; reflexivity.
  - destruct (Cell_init_fields p rs) as (c & rs1 & E1 & _).
    destruct (IH rs1) as (cs & rs2 & E2 & Hlen).
    exists (c :: cs), rs2. cbn [replicateM]. unfold bind at 1.
    rewrite E1. unfold bind at 1. rewrite E2. cbn. now rewrite Hlen.
Qed.

Lemma Environment_init_returns (p : Params) (rs : RandomState) :
  exists cs rs',
    length cs = n_cell p /\
    @Environment_init fn p rs =
    (rs', Ok {| cellrule := RuleName "default"; clock := 0;
                size := grid_size p; ncell := n_cell p;
                grid := np_zeros (grid_size p); cells := cs;
                pos_map := PyInt 0; bound := [] |}).
Proof.
  destruct (replicateM_Cell_init p (n_cell p) rs) as (cs & rs' & E & Hlen).
  exists cs, rs'. split; [exact Hlen|].
  unfold Environment_init, bind. rewrite E. reflexivity.
Qed.


End SimulationProperties.

Section ConstructionProperties.

Variable fn : Type.
Variable simrules : list (string * fn).
Variable cellrules : list (string * fn).

(** C1 fails on the code.  With both names registered, the simulation
    rule's name not one of the environment's own attributes, and at least
    one cell configured, construction raises [AttributeError] on the first
    cell of its loop: no rule is attached to any cell and no [Simulation]
    is returned. *)
Theorem construction_with_cells_raises (p : Params) (wsim wcell : string)
        (rs : RandomState) :
  In wsim (map fst simrules) ->
  In wcell (map fst cellrules) ->
  ~ In wsim (@Environment_own_names) ->
  (1 <= n_cell p)%nat ->
  exists rs',
    Simulation_init simrules cellrules p wsim wcell rs =
    (rs', Raise (AttributeError
                   "'Simulation' object has no attribute 'cellrule'")).
Proof.
  intros Hs Hc _ Hn.
  destruct (@resolve_In _ _ _ Hs) as [sr Esr].
  destruct (@resolve_In _ _ _ Hc) as [cr Ecr].
  destruct (@Environment_init_returns fn p rs) as (cs & rs' & Hlen & Ee).
  exists rs'. unfold Simulation_init. rewrite Esr.
  unfold bind at 1. rewrite Ee, Ecr. cbn [cells env_setattr].
  destruct cs as [|c cs]; [cbn in Hlen; lia|]. reflexivity.
Qed.

(** X2.  With no cell configured the loop body never runs and construction
    returns, when the simulation rule's name replaces no attribute of the
    environment: nothing was drawn from the generator, the simulation rule
    is found on the environment under the name that was asked for,
    [cellrule] holds the whole registry entry of the cell rule, and the
    rest of the environment is as [Environment.__init__] built it. *)
Theorem construction_without_cells (p : Params) (wsim wcell : string)
      (rs : RandomState) (sr cr : string * fn) :
  resolve wsim simrules = Some sr ->
  resolve wcell cellrules = Some cr ->
  free_name wsim ->
  n_cell p = 0%nat ->
  Simulation_init simrules cellrules p wsim wcell rs =
  (rs, Ok {| simrule := sr;
             e := {| cellrule := RuleEntry cr; clock := 0;
                     size := grid_size p; ncell := 0;
                     grid := np_zeros (grid_size p); cells := [];
                     pos_map := PyInt 0;
                     bound := [(fst sr, snd sr)] |} |}) /\
  fst sr = wsim /\ fst cr = wcell /\
  In sr simrules /\ In cr cellrules /\
  lookup wsim [(fst sr, snd sr)] = Some (snd sr).
Proof.
  intros Esr Ecr _ Hn.
  destruct (resolve_Some _ _ Esr) as [Hs1 Hs2].
  destruct (resolve_Some _ _ Ecr) as [Hc1 Hc2].
  split.
  - unfold Simulation_init, Environment_init.
    rewrite Esr, Ecr, Hn. reflexivity.
  - repeat split; try assumption.
    cbn [lookup]. rewrite Hs2. now rewrite String.eqb_refl.
Qed.

End ConstructionProperties.

(** ** Simulation.main *)

Section MainProperties.

Variable fn : Type.
Variable sim_call : fn -> M (EnvSt fn) unit.

Lemma main_loop_spec (sr : string * fn) (idx : list nat) (s : EnvSt fn) :
  main_loop sim_call sr idx s =
  match iterations sim_call sr idx s with
  | (s', Ok u) => (s', Ok u)
  | (s', Raise ValueError) => (print_dead s', Ok tt)
  | (s', Raise x) => (s', Raise x)
  end.
Proof.
  revert s. induction idx as [|i rest IH]; intros s; [reflexivity|].
  cbn [main_loop iterations]. unfold bind, emit, modify. cbv beta iota.
  destruct (iteration sim_call sr _) as [s1 [u|x]].
  - apply IH.
  - destruct x; reflexivity.
Qed.

(** C9, as amended.  When an iteration raises [ValueError], in the rule
    or in [get_grid], [main] stops there: the state is the one the raising
    iteration left with the line "Dead" printed after it, the exception
    does not leave [main], and the value returned is 0.  A run whose
    iterations all return also returns 0, so the value does not tell the
    two apart; an exception of any other class leaves [main]. *)
Theorem main_ends_on_ValueError (p : Params) (sr : string * fn)
        (s s' : EnvSt fn) :
  iterations sim_call sr (seq 0 (num_sim p)) s = (s', Raise ValueError) ->
  main sim_call p sr s = (print_dead s', Ok 0%Z) /\
  (forall s0 s1,
     iterations sim_call sr (seq 0 (num_sim p)) s0 = (s1, Ok tt) ->
     main sim_call p sr s0 = (s1, Ok 0%Z)) /\
  (forall s0 s1 x,
     x <> ValueError ->
     iterations sim_call sr (seq 0 (num_sim p)) s0 = (s1, Raise x) ->
     main sim_call p sr s0 = (s1, Raise x)).
Proof.
  intros H. unfold main, bind. split; [|split].
  - rewrite main_loop_spec, H. reflexivity.
  - intros s0 s1 H1. rewrite main_loop_spec, H1. reflexivity.
  - intros s0 s1 x Hx H1. rewrite main_loop_spec, H1.
    destruct x; try reflexivity. now elim Hx.
Qed.

End MainProperties.

(** ** Broadcasts that resolve *)

Lemma run_cells_length (m : M CellSt pyval) (cs : list Cell)
      (rs : RandomState) :
  length (fst (fst (run_cells m cs rs))) = length cs.
Proof.
  revert rs. induction cs as [|c cs IH]; intros rs; cbn [run_cells];
    [reflexivity|].
  destruct (m (c, rs)) as [[c1 rs1] [v|x]]; [|reflexivity].
  specialize (IH rs1).
  destruct (run_cells m cs rs1) as [[cs1 rs2] [vs|x]]; cbn in *; now rewrite IH.
Qed.

Lemma replace_nth_app (pre : list Cell) (c c1 : Cell) (post : list Cell) :
  replace_nth (length pre) c1 (pre ++ c :: post) = (pre ++ c1 :: post)%list.
Proof.
  induction pre as [|x pre IH]; cbn; [reflexivity|now rewrite IH].
Qed.

Lemma nth_error_middle (pre : list Cell) (c : Cell) (post : list Cell) :
  nth_error (pre ++ c :: post)%list (length pre) = Some c.
Proof.
  induction pre as [|x pre IH]; cbn; [reflexivity|exact IH].
Qed.

Lemma resolve_all_const (o : object_type) (name : string) (a : cell_attr)
      (cs : list Cell) :
  (forall c, Cell_getattr o c name = Ok a) ->
  resolve_all o name cs = Ok (repeat a (length cs)).
Proof.
  intros H. induction cs as [|c cs IH]; cbn [resolve_all length repeat];
    [reflexivity|]. now rewrite H, IH.
Qed.

Section Broadcast.

Variable fn : Type.
Variable fn_repr : fn -> string.
Variable p : Params.
Variable o : object_type.

Lemma invoke_each_run (name : string) (args : list pyval) (a : cell_attr)
      (cs : list Cell) :
  forall (pre : list Cell) (s : EnvSt fn) (cs' : list Cell)
         (rs' : RandomState) (vs : list pyval),
    cells (env s) = (pre ++ cs)%list ->
    run_cells (invoke p o a args) cs (rng s) = ((cs', rs'), Ok vs) ->
    invoke_each p o name args (length pre) (repeat a (length cs)) s =
    (after_broadcast s (pre ++ cs')%list rs'
                     (calls_of name (length pre) (length cs)), Ok vs).
Proof.
  induction cs as [|c cs IH]; intros pre s cs' rs' vs Hc Hrun.
  - cbn in Hrun. inversion Hrun; subst. cbn [length repeat invoke_each].
    unfold ret, after_broadcast, calls_of. cbn [seq map].
    rewrite !app_nil_r in *. rewrite <- Hc. destruct s as [e0 r0 o0 i0].
    cbn. now destruct e0.
  - cbn [run_cells] in Hrun.
    destruct (invoke p o a args (c, rng s)) as [[c1 rs1] [v|x]] eqn:E1;
      [|discriminate].
    destruct (run_cells (invoke p o a args) cs rs1) as [[cs1 rs2] [vs1|x]] eqn:E2;
      [|discriminate].
    inversion Hrun; subst cs' rs' vs.
    cbn [length repeat invoke_each].
    unfold bind at 1. unfold log_call at 1. unfold modify at 1.
    unfold bind at 1. unfold at_cell at 1. cbn [env rng out invoked].
    rewrite Hc, nth_error_middle, E1, replace_nth_app.
    unfold bind at 1.
    set (s1 := {| env := set_cells (pre ++ c1 :: cs)%list (env s);
                  rng := rs1; out := out s;
                  invoked := (invoked s ++ [(length pre, name)])%list |}).
    assert (Hc1 : cells (env s1) = ((pre ++ [c1]) ++ cs)%list)
      by (cbn; now rewrite <- app_assoc).
    pose proof (IH (pre ++ [c1])%list s1 cs1 rs2 vs1 Hc1 E2) as H.
    rewrite length_app in H. cbn [length] in H.
    rewrite Nat.add_1_r in H. rewrite H.
    unfold ret, after_broadcast, calls_of. cbn [env rng out invoked s1 seq map].
    rewrite <- !app_assoc. reflexivity.
Qed.

Lemma call_all_run (name : string) (args : list pyval) (a : cell_attr)
      (s : EnvSt fn) (cs' : list Cell) (rs' : RandomState)
      (vs : list pyval) :
  (forall c, Cell_getattr o c name = Ok a) ->
  run_cells (invoke p o a args) (cells (env s)) (rng s) = ((cs', rs'), Ok vs) ->
  call_all p o name args s =
  (after_broadcast s cs' rs'
                   (calls_of name 0 (length (cells (env s)))), Ok vs).
Proof.
  intros Ha Hrun. unfold call_all, bind, get, lift_result.
  rewrite (@resolve_all_const o name a _ Ha).
  exact (@invoke_each_run name args a (cells (env s)) [] s cs' rs' vs
           eq_refl Hrun).
Qed.

(** When [cellrule] names the method [live], one [update] on a non-empty
    collection does what section 4.2 of the spec lists, in that order: it
    calls [live(clock, pos_map)] on every cell, adds one to the clock,
    calls [think()] on every cell, keeps the cells that are alive and
    returns 1. *)
Lemma update_live (s : EnvSt fn) (cs1 cs2 : list Cell)
      (rs1 rs2 : RandomState) (vs1 vs2 : list pyval) :
  cells (env s) <> [] ->
  cellrule (env s) = RuleName "live" ->
  run_cells (invoke p o MLive [PyInt (clock (env s)); pos_map (env s)])
            (cells (env s)) (rng s) = ((cs1, rs1), Ok vs1) ->
  run_cells (invoke p o MThink []) cs1 rs1 = ((cs2, rs2), Ok vs2) ->
  update fn_repr p o s =
  ({| env := set_cells (filter alive cs2)
               (set_clock (clock (env s) + 1) (env s));
      rng := rs2; out := out s;
      invoked := (invoked s
                    ++ calls_of "live" 0 (length (cells (env s)))
                    ++ calls_of "think" 0 (length (cells (env s))))%list |},
   Ok 1%Z).
Proof.
  intros Hne Hrule Hlive Hthink. unfold update.
  unfold bind at 1. unfold get at 1.
  destruct (cells (env s)) as [|c cs] eqn:Hc; [now elim Hne|].
  cbn [np_any existsb orb negb]. rewrite Hrule. cbn [py_format].
  unfold bind at 1.
  rewrite (@call_all_run "live" _ MLive s cs1 rs1 vs1)
    by (try reflexivity; rewrite Hc; exact Hlive).
  unfold bind at 1. unfold on_env at 1. unfold modify at 1.
  unfold bind at 1.
  pose proof (run_cells_length
                (invoke p o MLive [PyInt (clock (env s)); pos_map (env s)])
                (c :: cs) (rng s)) as Hlen.
  rewrite Hlive in Hlen. cbn [fst] in Hlen.
  match goal with |- context [call_all p o "think" [] ?s1] =>
    rewrite (@call_all_run "think" [] MThink s1 cs2 rs2 vs2)
      by (try reflexivity; exact Hthink)
  end.
  unfold bind, on_env, modify, ret, after_broadcast.
  cbn [env rng out invoked cells set_cells set_clock].
  rewrite Hc, Hlen, <- app_assoc. reflexivity.
Qed.

End Broadcast.

(** ** The program on concrete inputs *)

(** After [live] a well-shaped cell stands on its grid, is still
    well-shaped, and its sensors fit its weights. *)
Lemma live_on_grid (t : Z) (pos_map : pyval) (c : Cell) (rs : RandomState) :
  well_shaped c -> (1 <= c_grid_size c)%nat ->
  exists c' rs',
    live (PyInt t) pos_map (c, rs) = ((c', rs'), Ok tt) /\
    on_grid (c_grid_size c) c' /\ ready c'.
Proof.
  intros (Hc & Hr & Ha) Hg. rewrite live_unfold.
  destruct (ravel (actions c)) as [|a0 [|a1 [|a2 [|a3 rest]]]] eqn:Hact;
    cbn in Ha; try lia.
  rewrite (move_eval c Hact). cbv zeta.
  match goal with |- context [think exact ?c2] =>
    rewrite (think_eval c2) by (cbn; exact Hc)
  end.
  assert (Hhi : 0 <= IZR (Z.of_nat (c_grid_size c) - 1))
    by (apply IZR_le; lia).
  destruct (Rle_dec _ _); do 2 eexists; (split; [reflexivity|]);
    (split; [split; cbn; apply clamp_bounds; exact Hhi|]);
    unfold ready; cbn; exact Hc.
Qed.

Lemma invoke_think_ready (p : Params) (o : object_type) (c : Cell)
      (rs : RandomState) :
  ready c ->
  exists c', invoke p o MThink [] (c, rs) = ((c', rs), Ok PyNone) /\
             pos c' = pos c.
Proof.
  intros H. unfold invoke, bind, on_self, zoom, ret. cbn [fst snd].
  rewrite (think_eval c H). eexists. split; reflexivity.
Qed.

Lemma run_cells_live_ok (p : Params) (o : object_type) (t : Z)
      (pos_map : pyval) (cs : list Cell) (rs : RandomState) :
  Forall (fun c => well_shaped c /\ (1 <= c_grid_size c)%nat) cs ->
  exists cs1 rs1 vs1,
    run_cells (invoke p o MLive [PyInt t; pos_map]) cs rs = ((cs1, rs1), Ok vs1) /\
    Forall ready cs1.
Proof.
  intros H. revert rs. induction H as [|c cs [Hw Hg] _ IH]; intros rs.
  - exists [], rs, []. split; [reflexivity|constructor].
  - destruct (live_on_grid t pos_map rs Hw Hg) as (c1 & rs1 & E & _ & Hr).
    destruct (IH rs1) as (cs1 & rs2 & vs1 & E2 & Hrs).
    exists (c1 :: cs1), rs2, (PyNone :: vs1). cbn [run_cells].
    unfold invoke at 1. unfold bind at 1. rewrite E. unfold ret at 1.
    rewrite E2. split; [reflexivity|now constructor].
Qed.

Lemma run_cells_think_ok (p : Params) (o : object_type) (cs : list Cell)
      (rs : RandomState) :
  Forall ready cs ->
  exists cs2 vs2,
    run_cells (invoke p o MThink []) cs rs = ((cs2, rs), Ok vs2).
Proof.
  induction 1 as [|c cs Hr _ (cs2 & vs2 & IH)].
  - exists [], []. reflexivity.
  - destruct (invoke_think_ready p o rs Hr) as (c1 & E & _).
    exists (c1 :: cs2), (PyNone :: vs2). cbn [run_cells].
    now rewrite E, IH.
Qed.

Section UpdateSequence.

Variable fn : Type.
Variable fn_repr : fn -> string.
Variable p : Params.
Variable o : object_type.

(** X1.  When [cellrule] names the method [live] and the cells have the shapes
    of [well_shaped] on a grid of at least one square, [update] on a
    non-empty collection returns 1, and the state it leaves shows the order
    of its steps: [live] ran on every cell in turn with the clock and the
    position map of before the call; the clock is one more than before;
    [think] ran on every cell that [live] left; the collection holds the
    cells for which alive is then true; the log has every cell's [live]
    before any cell's [think]; and nothing else of the environment
    changed. *)
Theorem update_live_sequence (s : EnvSt fn) :
  cells (env s) <> [] ->
  cellrule (env s) = RuleName "live" ->
  Forall (fun c => well_shaped c /\ (1 <= c_grid_size c)%nat)
         (cells (env s)) ->
  let s' := fst (update fn_repr p o s) in
  let n := length (cells (env s)) in
  exists cs1 rs1 vs1 cs2 vs2,
    run_cells (live (PyInt (clock (env s))) (pos_map (env s)) ;; ret PyNone)
              (cells (env s)) (rng s) = ((cs1, rs1), Ok vs1) /\
    run_cells (on_self (think exact) ;; ret PyNone) cs1 rs1 =
      ((cs2, rs1), Ok vs2) /\
    snd (update fn_repr p o s) = Ok 1%Z /\
    clock (env s') = (clock (env s) + 1)%Z /\
    cells (env s') = filter alive cs2 /\
    invoked s' =
      (invoked s ++ map (fun k => (k, "live")) (seq 0 n)
                 ++ map (fun k => (k, "think")) (seq 0 n))%list /\
    rng s' = rs1 /\ out s' = out s /\
    cellrule (env s') = cellrule (env s) /\ size (env s') = size (env s) /\
    ncell (env s') = ncell (env s) /\ grid (env s') = grid (env s) /\
    pos_map (env s') = pos_map (env s) /\ bound (env s') = bound (env s).
Proof.
  intros Hne Hrule Hw s' n.
  destruct (run_cells_live_ok p o (clock (env s)) (pos_map (env s)) (rng s) Hw)
    as (cs1 & rs1 & vs1 & E1 & Hr).
  destruct (run_cells_think_ok p o rs1 Hr) as (cs2 & vs2 & E2).
  exists cs1, rs1, vs1, cs2, vs2. split; [exact E1|]. split; [exact E2|].
  assert (E : update fn_repr p o s =
    ({| env := set_cells (filter alive cs2)
                 (set_clock (clock (env s) + 1) (env s));
        rng := rs1; out := out s;
        invoked := (invoked s
                      ++ calls_of "live" 0 (length (cells (env s)))
                      ++ calls_of "think" 0 (length (cells (env s))))%list |},
     Ok 1%Z)).
  { unfold update. unfold bind at 1. unfold get at 1.
    destruct (cells (env s)) as [|c cs] eqn:Hc; [now elim Hne|].
    cbn [np_any existsb orb negb]. rewrite Hrule. cbn [py_format].
    unfold bind at 1.
    rewrite (@call_all_run fn p o "live" _ MLive s cs1 rs1 vs1)
      by (try reflexivity; rewrite Hc; exact E1).
    unfold bind at 1. unfold on_env at 1. unfold modify at 1.
    unfold bind at 1.
    pose proof (run_cells_length
                  (invoke p o MLive [PyInt (clock (env s)); pos_map (env s)])
                  (c :: cs) (rng s)) as Hlen.
    rewrite E1 in Hlen. cbn [fst] in Hlen.
    match goal with |- context [call_all p o "think" [] ?s1] =>
      rewrite (@call_all_run fn p o "think" [] MThink s1 cs2 rs1 vs2)
        by (try reflexivity; exact E2)
    end.
    unfold bind, on_env, modify, ret, after_broadcast.
    cbn [env rng out invoked cells set_cells set_clock].
    rewrite Hc, Hlen, <- app_assoc. reflexivity. }
  subst s' n. rewrite E.
  cbn [fst snd env rng out invoked clock cells cellrule size ncell grid
       pos_map bound set_cells set_clock].
  repeat split; reflexivity.
Qed.

End UpdateSequence.

Lemma construction_with_cells_raises_witness :
  exists rs',
    Simulation_init demo_registry demo_registry one_run "default" "default"
                    zero_rng =
    (rs', Raise (AttributeError
                   "'Simulation' object has no attribute 'cellrule'")).
Proof.
  apply (@construction_with_cells_raises demo_fn demo_registry demo_registry
           one_run "default" "default" zero_rng).
  - cbn. auto.
  - cbn. auto.
  - cbn. intuition discriminate.
  - cbn. lia.
Defined.


Lemma live_age_alive_contract_witness :
  Forall (fun r => r = Ok tt)
         (outcomes [(0%Z, PyInt 0); (1%Z, PyPairs [(2%Z, 0%Z)])]
                   (sample_cell, zero_rng)).
Proof.
  apply (live_age_alive_contract
           [(0%Z, PyInt 0); (1%Z, PyPairs [(2%Z, 0%Z)])]
           sample_cell zero_rng).
  unfold well_shaped. cbn. lia.
Defined.

Lemma main_ends_on_ValueError_witness :
  main (demo_call three_runs) three_runs ("default", fn_update) extinct_state =
  (print_dead extinct_after, Ok 0%Z).
Proof.
  refine (proj1 (@main_ends_on_ValueError demo_fn (demo_call three_runs) three_runs
                   ("default", fn_update) extinct_state extinct_after _)).
  reflexivity.
Defined.

(** C9 does not hold as stated: a run that ends early on an empty
    population and a run that completes its iteration return the same
    value, 0; only the printed line tells them apart. *)
Lemma main_status_counterexample :
  (exists s1,
     main (demo_call three_runs) three_runs ("default", fn_update) extinct_state =
       (s1, Ok 0%Z) /\
     In (Printed "Dead") (out s1)) /\
  (exists s2,
     main (demo_call one_run) one_run ("step", fn_live) populated_state =
       (s2, Ok 0%Z) /\
     Forall (fun o => o <> Printed "Dead") (out s2)).
Proof.
  split.
  - exists (print_dead extinct_after). split; [reflexivity|].
    cbn. auto.
  - destruct (@live_on_grid 0 (PyInt 0) sample_cell zero_rng)
      as (c' & rs' & E & Hon & _).
    { unfold well_shaped. cbn. lia. }
    { cbn. lia. }
    set (s0 := {| env := env populated_state; rng := zero_rng;
                  out := [Printed "iteration n. 0"]; invoked := [] |}).
    set (s1 := after_broadcast s0 [c'] rs' (calls_of "live" 0 1)).
    assert (Hrule : env_call (demo_call one_run) "step" s0 = (s1, Ok tt)).
    { unfold env_call, bind, get. cbn [lookup env bound s0 populated_state].
      change (String.eqb "step" "step") with true. cbv iota.
      unfold demo_call, bind, get.
      rewrite (@call_all_run demo_fn one_run bare_object "live" _ MLive s0
                 [c'] rs' [PyNone]).
      - reflexivity.
      - reflexivity.
      - cbn [cells env s0 populated_state rng run_cells].
        unfold invoke, bind. cbn [clock pos_map]. rewrite E. reflexivity. }
    assert (Eg := @get_grid_returns demo_fn s1 ltac:(discriminate)
                    ltac:(constructor; [exact Hon|constructor])).
    cbv zeta in Eg.
    eexists. split.
    + unfold main, bind. cbn [num_sim one_run seq main_loop].
      unfold bind, emit, modify. cbv beta iota.
      unfold iteration. cbn [fst]. unfold bind at 1.
      match goal with |- context [env_call (demo_call one_run) "step" ?st] =>
        change st with s0
      end.
      rewrite Hrule.
      unfold bind at 1. rewrite Eg. unfold plotgrid, bind, get, emit, modify.
      reflexivity.
    + cbn. repeat constructor; discriminate.
Qed.

Lemma update_live_sequence_witness :
  let s' := fst (update unit_repr one_run bare_object live_state) in
  exists cs1 rs1 vs1 cs2 vs2,
    run_cells (live (PyInt 0) (PyInt 0) ;; ret PyNone) [sample_cell] zero_rng =
      ((cs1, rs1), Ok vs1) /\
    run_cells (on_self (think exact) ;; ret PyNone) cs1 rs1 =
      ((cs2, rs1), Ok vs2) /\
    snd (update unit_repr one_run bare_object live_state) = Ok 1%Z /\
    clock (env s') = 1%Z /\
    cells (env s') = filter alive cs2 /\
    invoked s' = [(0%nat, "live"); (0%nat, "think")] /\
    rng s' = rs1 /\ out s' = [] /\
    cellrule (env s') = RuleName "live" /\ size (env s') = 5%nat /\
    ncell (env s') = 1%nat /\ grid (env s') = np_zeros 5 /\
    pos_map (env s') = PyInt 0 /\ bound (env s') = [].
Proof.
  apply (@update_live_sequence unit unit_repr one_run bare_object live_state).
  - discriminate.
  - reflexivity.
  - constructor; [|constructor]. unfold well_shaped. cbn. lia.
Defined.

Lemma construction_without_cells_witness :
  Simulation_init demo_registry demo_registry three_runs "default" "default"
                  zero_rng =
  (zero_rng, Ok {| simrule := ("default", fn_update); e := env extinct_state |}).
Proof.
  apply (@construction_without_cells demo_fn demo_registry demo_registry
           three_runs "default" "default" zero_rng
           ("default", fn_update) ("default", fn_update)).
  - reflexivity.
  - reflexivity.
  - unfold free_name. cbn. intuition discriminate.
  - reflexivity.
Defined.

(** * Further properties of the cell methods *)

(** X3.  [think] never sets a channel on a weighted sum that is zero or
    negative.  The value handed to [np.exp] for channel i is
    z = (-1 * row i) . sensors; when z, as computed, is not negative, the
    sigmoid is at most 1/2 and rounds to 0 (the tie at exactly 1/2 goes to
    the even neighbour): [think] returns and channel i of the new actions
    is 0.  This holds in every arithmetic with the properties of [lawful].
    The converse does not: in float64 a positive sum too small to move
    [exp] away from 1 also gives 0. *)
Theorem think_zero_channel (A : arith) (c : Cell) (i : nat) (row : list R) :
  lawful A ->
  ready c ->
  nth_error (m_rows (brain_dna c)) i = Some row ->
  0 <= fl_dot A (map (Rmult (-1)) row) (ravel (sensors c)) ->
  snd (think A c) = Ok tt /\
  nth_error (ravel (actions (fst (think A c)))) i = Some 0.
Proof.
  intros HA Hr Hrow Hz.
  assert (E : think A c =
    (set_actions
       (same_shape (sensors c)
          (map (fun row => channel A row (ravel (sensors c)))
               (m_rows (brain_dna c)))) c, Ok tt)).
  { unfold think, bind, get, lift_result, put, np_matmul.
    cbn [m_scale m_cols m_rows]. rewrite Hr, Nat.eqb_refl.
    f_equal. f_equal.
    destruct (sensors c) as [l|l]; cbn [nd_map same_shape ravel];
      rewrite !map_map; reflexivity. }
  rewrite E.
  cbn [fst snd actions set_actions]. split; [reflexivity|].
  rewrite ravel_same_shape, nth_error_map, Hrow. cbn [option_map].
  f_equal. unfold channel. apply np_round_low.
  pose proof (den_ge_2 HA Hz) as H2.
  split; [apply (div_unit HA); lra|apply (div_half HA); exact H2].
Qed.

Lemma think_zero_channel_witness :
  snd (think exact keen_cell) = Ok tt /\
  nth_error (ravel (actions (fst (think exact keen_cell)))) 1 = Some 0.
Proof.
  apply (@think_zero_channel exact keen_cell 1 [-1; 0; 0; 0; 0] exact_lawful).
  - reflexivity.
  - reflexivity.
  - cbn [exact fl_dot keen_cell sensors ravel map dot]. lra.
Defined.

(** The converse of X3 holds in exact arithmetic and fails in float64: a
    weighted sum of 2^-60 leaves [exp] at 1, the sigmoid at exactly 1/2,
    and the channel at 0.  [snapping] has the properties of [lawful] and
    shows it. *)
Lemma snapping_lawful : lawful snapping.
Proof.
  constructor; cbn [snapping fl_exp fl_add fl_div].
  - intros z. destruct (Rle_dec _ _); [lra|]. pose proof (exp_pos z). lra.
  - intros z Hz. destruct (Rle_dec _ _); [lra|].
    destruct Hz as [Hz|Hz].
    + pose proof (exp_increasing 0 z Hz) as H. rewrite exp_0 in H. lra.
    + subst z. rewrite exp_0. lra.
  - apply (div_unit exact_lawful).
  - apply (div_half exact_lawful).
Qed.

Lemma think_faint_sum :
  weighted_sum [1 / 1152921504606846976; 0; 0; 0; 0] [1; 0; 0; 0; 0] > 0 /\
  nth_error (ravel (actions (fst (think snapping faint_cell)))) 0 = Some 0 /\
  nth_error (ravel (actions (fst (think exact faint_cell)))) 0 = Some 1.
Proof.
  split; [unfold weighted_sum; cbn; lra|]. split.
  - rewrite (think_unfold snapping faint_cell eq_refl).
    cbn [fst actions set_actions]. rewrite ravel_same_shape.
    cbn [faint_cell brain_dna m_rows sensors ravel map nth_error].
    f_equal. unfold channel.
    cbn [snapping fl_dot fl_exp fl_add fl_div map dot].
    destruct (Rle_dec _ _) as [_|Hn].
    + apply np_round_low. lra.
    + exfalso. apply Hn. unfold Rabs. destruct (Rcase_abs _); lra.
  - rewrite (think_unfold exact faint_cell eq_refl).
    cbn [fst actions set_actions]. rewrite ravel_same_shape.
    cbn [faint_cell brain_dna m_rows sensors ravel map nth_error].
    f_equal. rewrite channel_exact, np_round_sigmoid.
    unfold weighted_sum. cbn [combine map fold_right fst snd].
    destruct (Rlt_dec _ _); [reflexivity|lra].
Qed.

(** X4.  With fewer than three action channels the slices of [move] do not
    broadcast against the position: [move] raises [ValueError] and the cell
    is left exactly as it was. *)
Theorem move_too_few_channels (c : Cell) :
  (length (ravel (actions c)) <= 2)%nat ->
  move c = (c, Raise ValueError).
Proof.
  intros H. unfold move, bind, get, lift_result.
  destruct (ravel (actions c)) as [|a0 [|a1 [|a2 rest]]]; cbn in H;
    try lia; reflexivity.
Qed.

(** X5.  With exactly three channels the one-element slice [actions[2:4]] is
    broadcast: the third channel is the negative drive on both axes.
    [move] returns, the position it leaves is the old one plus velocity
    times (actions[0]-actions[2], actions[1]-actions[2]), cut to the grid,
    and every other field of the cell is as before. *)
Theorem move_three_channels (c : Cell) (a0 a1 a2 : R) :
  ravel (actions c) = [a0; a1; a2] ->
  let hi := IZR (Z.of_nat (c_grid_size c) - 1) in
  move c =
  (set_pos (clamp hi (fst (pos c) + velocity c * (a0 - a2)),
            clamp hi (snd (pos c) + velocity c * (a1 - a2))) c, Ok tt) /\
  fst (pos (fst (move c))) =
    Rmax (Rmin (fst (pos c) + velocity c * (a0 - a2)) hi) 0 /\
  snd (pos (fst (move c))) =
    Rmax (Rmin (snd (pos c) + velocity c * (a1 - a2)) hi) 0 /\
  same_but_pos c (fst (move c)).
Proof.
  intros Ha hi.
  assert (E : move c =
    (set_pos (clamp hi (fst (pos c) + velocity c * (a0 - a2)),
              clamp hi (snd (pos c) + velocity c * (a1 - a2))) c, Ok tt)).
  { unfold move, bind, get, lift_result, put.
    rewrite Ha. cbn [firstn skipn broadcast length Nat.eqb map2 map reduce2].
    unfold clamp. fold hi. rewrite Rmult_1_l.
    rewrite (Rmult_comm (a0 - a2)), (Rmult_comm (a1 - a2)).
    reflexivity. }
  rewrite E. cbn [fst snd pos set_pos].
  split; [reflexivity|]. split; [reflexivity|]. split; [reflexivity|].
  unfold same_but_pos. cbn. tauto.
Qed.

(** X6.  A cell that stands on its grid and has no net drive on either axis, or
    no velocity, is not moved by [move]. *)
Theorem move_without_drive (c : Cell) (a0 a1 a2 a3 : R) (rest : list R) :
  ravel (actions c) = a0 :: a1 :: a2 :: a3 :: rest ->
  on_grid (c_grid_size c) c ->
  (a0 = a2 /\ a1 = a3) \/ velocity c = 0 ->
  move c = (c, Ok tt).
Proof.
  intros Ha [[Hx0 Hx1] [Hy0 Hy1]] Hd. rewrite (move_eval c Ha). cbv zeta.
  assert (Hc : forall t hi, 0 <= t <= hi -> clamp hi t = t).
  { intros t hi [H0 H1]. unfold clamp, Rmax, Rmin.
    destruct (Rle_dec t hi); destruct (Rle_dec _ 0); lra. }
  assert (Ex : fst (pos c) + velocity c * (a0 - a2) = fst (pos c)).
  { destruct Hd as [[-> _]| ->]; lra. }
  assert (Ey : snd (pos c) + velocity c * (a1 - a3) = snd (pos c)).
  { destruct Hd as [[_ ->]| ->]; lra. }
  rewrite Ex, Ey, !Hc by (split; assumption).
  rewrite <- surjective_pairing, set_pos_same. reflexivity.
Qed.

Lemma move_too_few_channels_witness :
  move (set_actions (Vec [1; 0]) sample_cell) =
  (set_actions (Vec [1; 0]) sample_cell, Raise ValueError).
Proof.
  apply (@move_too_few_channels (set_actions (Vec [1; 0]) sample_cell)).
  cbn. lia.
Defined.

Lemma move_three_channels_witness :
  let c := set_actions (Vec [1; 0; 1]) sample_cell in
  let hi := IZR (Z.of_nat 5 - 1) in
  move c = (set_pos (clamp hi (2 + 1 * (1 - 1)), clamp hi (0 + 1 * (0 - 1))) c,
            Ok tt) /\
  fst (pos (fst (move c))) = Rmax (Rmin (2 + 1 * (1 - 1)) hi) 0 /\
  snd (pos (fst (move c))) = Rmax (Rmin (0 + 1 * (0 - 1)) hi) 0 /\
  same_but_pos c (fst (move c)).
Proof.
  apply (@move_three_channels (set_actions (Vec [1; 0; 1]) sample_cell)
           1 0 1).
  reflexivity.
Defined.

Lemma move_without_drive_witness :
  move (set_actions (Vec [1; 0; 1; 0]) sample_cell) =
  (set_actions (Vec [1; 0; 1; 0]) sample_cell, Ok tt).
Proof.
  apply (@move_without_drive (set_actions (Vec [1; 0; 1; 0]) sample_cell)
           1 0 1 0 []).
  - reflexivity.
  - unfold on_grid. cbn. lra.
  - left. split; reflexivity.
Defined.

Lemma think_mismatch (A : arith) (c : Cell) :
  m_cols (brain_dna c) <> length (ravel (sensors c)) ->
  think A c = (c, Raise ValueError).
Proof.
  intros H. unfold think, bind, get, lift_result, np_matmul.
  cbn [m_scale m_cols]. apply Nat.eqb_neq in H. now rewrite H.
Qed.

(** X7.  A cell whose weight matrix is not five columns wide fails in [live]
    half-way: the call raises [ValueError]; the position of the cell it
    leaves has been moved and cut to the grid, its sensors have been
    replaced by the five-entry vector for that position, and one random
    sample is gone; but age, alive, the actions and the weights are as
    before. *)
Theorem live_fails_at_think (t : Z) (pos_map : pyval) (c : Cell)
        (rs : RandomState) (a0 a1 a2 a3 : R) (rest : list R) :
  ravel (actions c) = a0 :: a1 :: a2 :: a3 :: rest ->
  m_cols (brain_dna c) <> 5%nat ->
  let c1 := set_pos (moved c a0 a1 a2 a3) c in
  let c2 := set_sensors (sensed c1 t (rs_sample rs (rs_cursor rs))) c1 in
  let hi := IZR (Z.of_nat (c_grid_size c) - 1) in
  let c' := fst (fst (live (PyInt t) pos_map (c, rs))) in
  let rs' := snd (fst (live (PyInt t) pos_map (c, rs))) in
  live (PyInt t) pos_map (c, rs) = ((c2, rs_skip 1 rs), Raise ValueError) /\
  age c2 = age c /\ alive c2 = alive c /\ actions c2 = actions c /\
  snd (live (PyInt t) pos_map (c, rs)) = Raise ValueError /\
  fst (pos c') = Rmax (Rmin (fst (pos c) + velocity c * (a0 - a2)) hi) 0 /\
  snd (pos c') = Rmax (Rmin (snd (pos c) + velocity c * (a1 - a3)) hi) 0 /\
  sensors c' = Vec [1; rs_sample rs (rs_cursor rs); sin (PI * IZR t / 10);
                    fst (pos c') / INR (c_grid_size c);
                    snd (pos c') / INR (c_grid_size c)] /\
  rs_cursor rs' = (rs_cursor rs + 1)%nat /\ rs_sample rs' = rs_sample rs /\
  age c' = age c /\ alive c' = alive c /\ actions c' = actions c /\
  brain_dna c' = brain_dna c.
Proof.
  intros Ha Hm c1 c2 hi c' rs'.
  assert (E : live (PyInt t) pos_map (c, rs) =
              ((c2, rs_skip 1 rs), Raise ValueError)).
  { rewrite live_unfold, (move_eval c Ha). cbv zeta.
    fold (moved c a0 a1 a2 a3). fold c1.
    change (Vec _) with (sensed c1 t (rs_sample rs (rs_cursor rs))).
    fold c2. rewrite (think_mismatch exact c2); [reflexivity|].
    cbn. exact Hm. }
  subst c' rs'. rewrite E. cbn [fst snd].
  repeat split; reflexivity.
Qed.

Lemma live_fails_at_think_witness :
  let r := live (PyInt 0) PyNone (narrow_cell, zero_rng) in
  snd r = Raise ValueError /\
  fst (pos (fst (fst r))) = Rmax (Rmin (2 + 1 * (1 - 0)) 4) 0 /\
  snd (pos (fst (fst r))) = Rmax (Rmin (0 + 1 * (0 - 1)) 4) 0 /\
  sensors (fst (fst r)) =
    Vec [1; 0; sin (PI * 0 / 10);
         fst (pos (fst (fst r))) / INR 5; snd (pos (fst (fst r))) / INR 5] /\
  rs_cursor (snd (fst r)) = 1%nat /\ rs_sample (snd (fst r)) = (fun _ => 0) /\
  age (fst (fst r)) = 0%Z /\ alive (fst (fst r)) = true /\
  actions (fst (fst r)) = Vec [1; 0; 0; 1] /\
  brain_dna (fst (fst r)) = brain_dna narrow_cell.
Proof.
  apply (@live_fails_at_think 0 PyNone narrow_cell zero_rng 1 0 0 1 []).
  - reflexivity.
  - cbn. lia.
Defined.

(** ** Whole-number positions *)

Lemma whole_IZR (z : Z) : whole (IZR z).
Proof. now exists z. Qed.

Lemma whole_plus (x y : R) : whole x -> whole y -> whole (x + y).
Proof. intros [a ->] [b ->]. exists (a + b)%Z. now rewrite plus_IZR. Qed.

Lemma whole_minus (x y : R) : whole x -> whole y -> whole (x - y).
Proof. intros [a ->] [b ->]. exists (a - b)%Z. now rewrite minus_IZR. Qed.

Lemma whole_mult (x y : R) : whole x -> whole y -> whole (x * y).
Proof. intros [a ->] [b ->]. exists (a * b)%Z. now rewrite mult_IZR. Qed.

Lemma whole_bit (a : R) : a = 0 \/ a = 1 -> whole a.
Proof. intros [->| ->]; [exists 0%Z|exists 1%Z]; reflexivity. Qed.

Lemma whole_clamp (hi t : R) : whole hi -> whole t -> whole (clamp hi t).
Proof.
  intros Hh Ht. unfold clamp, Rmax, Rmin.
  destruct (Rle_dec t hi); destruct (Rle_dec _ 0);
    try assumption; apply (whole_IZR 0).
Qed.

Lemma np_round_whole (x : R) : whole (np_round x).
Proof.
  unfold np_round.
  destruct (Rlt_dec _ _); [apply whole_IZR|].
  destruct (Rlt_dec _ _); [apply whole_IZR|].
  destruct (Z.even _); apply whole_IZR.
Qed.

Lemma py_int_whole (x : R) : whole x -> IZR (py_int x) = x.
Proof. intros [z ->]. now rewrite py_int_IZR. Qed.

(** X8.  Positions stay whole numbers.  On a cell with the shapes of
    [well_shaped], a whole position and velocity and actions of 0 and 1,
    [live] returns and leaves a cell of the same kind; the integer pair
    [get_grid] takes from it is then the position itself, with nothing cut
    off by [int]. *)
Theorem live_keeps_whole (t : Z) (pos_map : pyval) (c : Cell)
        (rs : RandomState) :
  well_shaped c -> whole_cell c ->
  exists c' rs',
    live (PyInt t) pos_map (c, rs) = ((c', rs'), Ok tt) /\
    well_shaped c' /\ whole_cell c' /\
    IZR (fst (cell_coords c')) = fst (pos c') /\
    IZR (snd (cell_coords c')) = snd (pos c').
Proof.
  intros Hw (Hx & Hy & Hv & Hb).
  destruct (live_returns t pos_map rs Hw) as [Hok Hw'].
  destruct Hw as (Hc & Hr & Ha).
  destruct (ravel (actions c)) as [|a0 [|a1 [|a2 [|a3 rest]]]] eqn:Hact;
    cbn in Ha; try lia.
  assert (Hbits : whole a0 /\ whole a1 /\ whole a2 /\ whole a3).
  { inversion Hb as [|? ? B0 Hb1]; subst.
    inversion Hb1 as [|? ? B1 Hb2]; subst.
    inversion Hb2 as [|? ? B2 Hb3]; subst.
    inversion Hb3 as [|? ? B3 _]; subst.
    auto using whole_bit. }
  destruct Hbits as (W0 & W1 & W2 & W3).
  revert Hok Hw'. rewrite live_unfold, (move_eval c Hact). cbv zeta.
  match goal with |- context [think exact ?c2] =>
    rewrite (think_eval c2) by (cbn; exact Hc)
  end.
  assert (Hs : forall v l, ravel (same_shape v l) = l)
    by (intros [?|?] ?; reflexivity).
  assert (Hpx : whole (clamp (IZR (Z.of_nat (c_grid_size c) - 1))
                         (fst (pos c) + velocity c * (a0 - a2))))
    by auto using whole_clamp, whole_IZR, whole_plus, whole_mult, whole_minus.
  assert (Hpy : whole (clamp (IZR (Z.of_nat (c_grid_size c) - 1))
                         (snd (pos c) + velocity c * (a1 - a3))))
    by auto using whole_clamp, whole_IZR, whole_plus, whole_mult, whole_minus.
  assert (Hbin : forall rows v,
             Forall (fun a => a = 0 \/ a = 1)
                    (map (fun row : list R => np_round (sigmoid (dot row v)))
                         rows)).
  { intros rows v. apply Forall_forall. intros a Hin.
    apply in_map_iff in Hin. destruct Hin as [row [<- _]].
    apply np_round_unit, sigmoid_range. }
  destruct (Rle_dec _ _); intros _ Hw'; do 2 eexists;
    (split; [reflexivity|]); (split; [exact Hw'|]);
    unfold whole_cell, cell_coords; cbn [pos velocity actions fst snd
      set_alive set_age set_actions set_sensors set_pos];
    rewrite Hs, !py_int_whole by assumption; auto 10.
Qed.

Lemma live_keeps_whole_witness :
  exists c' rs',
    live (PyInt 0) (PyInt 0) (sample_cell, zero_rng) = ((c', rs'), Ok tt) /\
    well_shaped c' /\ whole_cell c' /\
    IZR (fst (cell_coords c')) = fst (pos c') /\
    IZR (snd (cell_coords c')) = snd (pos c').
Proof.
  apply (@live_keeps_whole 0 (PyInt 0) sample_cell zero_rng).
  - unfold well_shaped. cbn. lia.
  - unfold whole_cell. cbn. repeat split.
    + exists 2%Z. reflexivity.
    + exists 0%Z. reflexivity.
    + exists 1%Z. reflexivity.
    + repeat apply Forall_cons; auto.
Defined.

(** ** Cell.__init__ *)

Lemma reshape_rows (rows cols : nat) (l : list R) :
  length l = (rows * cols)%nat ->
  Forall (fun r => length r = cols) (reshape rows cols l).
Proof.
  revert l. induction rows as [|r IH]; intros l Hl; cbn [reshape];
    constructor.
  - rewrite length_firstn. cbn in Hl. lia.
  - apply IH. rewrite length_skipn. cbn in Hl. lia.
Qed.

Lemma np_round_between (x : R) (k : Z) :
  0 <= x <= IZR k -> 0 <= np_round x <= IZR k.
Proof.
  intros [H0 H1]. destruct (base_Int_part x) as [B1 B2].
  assert (Hf0 : (0 <= Int_part x)%Z).
  { assert (H : (-1 < Int_part x)%Z) by (apply lt_IZR; lra). lia. }
  assert (Hfk : (Int_part x <= k)%Z) by (apply le_IZR; lra).
  assert (I0 : 0 <= IZR (Int_part x)) by (apply IZR_le; exact Hf0).
  unfold np_round.
  assert (Hup : x - IZR (Int_part x) <> 0 -> IZR (Int_part x + 1) <= IZR k).
  { intros Hne. apply IZR_le.
    destruct (Z.eq_dec (Int_part x) k) as [E|E]; [|lia].
    rewrite E in *. lra. }
  assert (I1 : 0 <= IZR (Int_part x + 1)) by (apply IZR_le; lia).
  destruct (Rlt_dec _ _); [lra|].
  destruct (Rlt_dec _ _); [split; [lra|apply Hup; lra]|].
  destruct (Z.even _); [lra|split; [lra|apply Hup; lra]].
Qed.

(** [move] returns exactly when there are at least three action channels:
    two channels or fewer do not broadcast against the position. *)
Lemma move_outcome (c : Cell) :
  ((3 <= length (ravel (actions c)))%nat /\
   exists q, move c = (set_pos q c, Ok tt)) \/
  ((length (ravel (actions c)) <= 2)%nat /\ move c = (c, Raise ValueError)).
Proof.
  destruct (ravel (actions c)) as [|a0 [|a1 [|a2 [|a3 rest]]]] eqn:Ha.
  - right. split; [cbn; lia|].
    unfold move, bind, get, lift_result. rewrite Ha. reflexivity.
  - right. split; [cbn; lia|].
    unfold move, bind, get, lift_result. rewrite Ha. reflexivity.
  - right. split; [cbn; lia|].
    unfold move, bind, get, lift_result. rewrite Ha. reflexivity.
  - left. split; [cbn; lia|]. eexists.
    unfold move, bind, get, lift_result, put. rewrite Ha. reflexivity.
  - left. split; [cbn; lia|]. eexists. exact (move_eval c Ha).
Qed.

(** [live] returns exactly when the cell has at least three action
    channels and five sensor weights per row. *)
Lemma live_returns_iff (t : Z) (pos_map : pyval) (c : Cell)
      (rs : RandomState) :
  snd (live (PyInt t) pos_map (c, rs)) = Ok tt <->
  (3 <= length (ravel (actions c)))%nat /\ m_cols (brain_dna c) = 5%nat.
Proof.
  rewrite live_unfold.
  destruct (move_outcome c) as [[Hlen [q Hq]]|[Hlen Hq]]; rewrite Hq.
  - cbv zeta.
    destruct (Nat.eq_dec (m_cols (brain_dna c)) 5) as [Hm|Hm].
    + match goal with |- context [think exact ?c2] =>
        rewrite (think_eval c2) by (cbn; exact Hm)
      end.
      destruct (Rle_dec _ _); cbn [snd]; tauto.
    + match goal with |- context [think exact ?c2] =>
        rewrite (think_mismatch exact c2) by (cbn; exact Hm)
      end.
      cbn [snd]. split; [discriminate|tauto].
  - cbn [snd]. split; [discriminate|lia].
Qed.

(** X9.  A new cell.  [Cell.__init__] always returns and takes exactly
    6 + num_actions * num_sensors samples from the generator; the cell is
    alive with age 0 and the configured grid size, its position and
    velocity are whole numbers, its actions are num_actions zeros and its
    sensors num_sensors entries; its weights are num_actions rows of
    num_sensors entries; and [live] returns on it exactly when num_sensors
    is 5 and num_actions is at least 3. *)
Theorem Cell_init_fresh (p : Params) (rs : RandomState) :
  exists c rs',
    Cell_init p rs = (rs', Ok c) /\
    rs_cursor rs' = (rs_cursor rs + 6 + num_actions p * num_sensors p)%nat /\
    rs_sample rs' = rs_sample rs /\
    alive c = true /\ age c = 0%Z /\ c_grid_size c = grid_size p /\
    whole_cell c /\
    Forall (fun a => a = 0) (ravel (actions c)) /\
    length (ravel (actions c)) = num_actions p /\
    length (ravel (sensors c)) = num_sensors p /\
    length (m_rows (brain_dna c)) = num_actions p /\
    Forall (fun row => length row = num_sensors p) (m_rows (brain_dna c)) /\
    m_cols (brain_dna c) = num_sensors p /\
    (forall t pos_map rs0,
       snd (live (PyInt t) pos_map (c, rs0)) = Ok tt <->
       num_sensors p = 5%nat /\ (3 <= num_actions p)%nat).
Proof.
  unfold Cell_init, bind, rs_take, ret. cbn [fst snd rs_cursor rs_sample].
  do 2 eexists. split; [reflexivity|].
  cbn [rs_cursor rs_sample alive age brain_dna m_rows m_cols actions sensors
       ravel c_grid_size].
  split; [lia|]. split; [reflexivity|]. split; [reflexivity|].
  split; [reflexivity|]. split; [reflexivity|].
  assert (Hz : Forall (fun a => a = 0) (repeat 0 (num_actions p))).
  { apply Forall_forall. intros a Ha. now apply repeat_spec in Ha. }
  split.
  { unfold whole_cell. cbn [pos velocity actions fst snd ravel].
    repeat split; try apply np_round_whole.
    eapply Forall_impl; [|exact Hz]. intros a ->. now left. }
  split; [exact Hz|]. split; [apply repeat_length|].
  split; [apply repeat_length|]. split; [apply reshape_length|].
  split; [apply reshape_rows; now rewrite length_map, length_seq|].
  split; [reflexivity|].
  intros t pos_map rs0. rewrite live_returns_iff.
  cbn [brain_dna m_cols actions ravel]. rewrite repeat_length. tauto.
Qed.

(** X10.  When the two position samples lie in [0, grid_size - 1], as
    [np.random.uniform(0, grid_size - 1)] draws them, a new cell stands on
    the grid: rounding cannot push it over either edge. *)
Theorem Cell_init_on_grid (p : Params) (rs : RandomState) :
  let k := (rs_cursor rs + 4 + num_actions p * num_sensors p)%nat in
  0 <= rs_sample rs k <= IZR (Z.of_nat (grid_size p) - 1) ->
  0 <= rs_sample rs (S k) <= IZR (Z.of_nat (grid_size p) - 1) ->
  exists c rs',
    Cell_init p rs = (rs', Ok c) /\ on_grid (grid_size p) c.
Proof.
  intros k Hx Hy.
  unfold Cell_init, bind, rs_take, ret. cbn [fst snd rs_cursor rs_sample].
  do 2 eexists. split; [reflexivity|].
  unfold on_grid. cbn [pos fst snd seq map nth]. fold k.
  split; apply np_round_between; assumption.
Qed.

Lemma Cell_init_on_grid_witness :
  exists c rs',
    Cell_init small_params zero_rng = (rs', Ok c) /\ on_grid 5 c.
Proof.
  apply (@Cell_init_on_grid small_params zero_rng); cbn; lra.
Defined.

(** * Further properties of the environment *)

Section BroadcastFrame.

Variable fn : Type.
Variable p : Params.
Variable o : object_type.

Lemma same_frame_refl (s : EnvSt fn) : same_frame s s.
Proof. unfold same_frame. tauto. Qed.

Lemma same_frame_trans (s1 s2 s3 : EnvSt fn) :
  same_frame s1 s2 -> same_frame s2 s3 -> same_frame s1 s3.
Proof.
  unfold same_frame. intros H1 H2.
  decompose [and] H1. decompose [and] H2. repeat split; congruence.
Qed.

Lemma replace_nth_length (i : nat) (c : Cell) (l : list Cell) :
  length (replace_nth i c l) = length l.
Proof.
  revert i. induction l as [|x l IH]; intros [|i]; cbn; auto.
Qed.

Lemma at_cell_frame {A : Type} (i : nat) (m : M CellSt A) (s : EnvSt fn) :
  same_frame s (fst (at_cell i m s)) /\
  invoked (fst (at_cell i m s)) = invoked s.
Proof.
  unfold at_cell. destruct (nth_error (cells (env s)) i) as [c|].
  - destruct (m (c, rng s)) as [[c' r'] res]. cbn.
    unfold same_frame. cbn. rewrite replace_nth_length. tauto.
  - cbn. split; [apply same_frame_refl|reflexivity].
Qed.

(** What [invoke_each] does whatever the methods do: the frame is kept,
    the cells are called in index order from [i] on, each call logged, up
    to the first that raises. *)
Lemma invoke_each_any (name : string) (args : list pyval)
      (ms : list cell_attr) :
  forall (i : nat) (s : EnvSt fn),
    let s' := fst (invoke_each p o name args i ms s) in
    let r := snd (invoke_each p o name args i ms s) in
    same_frame s s' /\
    exists k, (k <= length ms)%nat /\
      invoked s' = (invoked s ++ calls_of name i k)%list /\
      (forall vs, r = Ok vs -> k = length ms /\ length vs = length ms) /\
      (forall x, r = Raise x -> (1 <= k)%nat).
Proof.
  induction ms as [|a ms IH]; intros i s.
  - cbn. split; [apply same_frame_refl|]. exists 0%nat.
    unfold calls_of. cbn. rewrite app_nil_r.
    repeat split; try lia; try inversion H; reflexivity || discriminate.
  - set (s0 := {| env := env s; rng := rng s; out := out s;
                  invoked := (invoked s ++ [(i, name)])%list |}).
    assert (Eq : invoke_each p o name args i (a :: ms) s =
                 match at_cell i (invoke p o a args) s0 with
                 | (s1, Ok v) =>
                     match invoke_each p o name args (S i) ms s1 with
                     | (s2, Ok vs) => (s2, Ok (v :: vs))
                     | (s2, Raise x) => (s2, Raise x)
                     end
                 | (s1, Raise x) => (s1, Raise x)
                 end) by reflexivity.
    cbv zeta. rewrite Eq. clear Eq.
    assert (F0 : same_frame s s0) by (unfold same_frame; cbn; tauto).
    destruct (at_cell_frame i (invoke p o a args) s0) as [F1 L1].
    destruct (at_cell i (invoke p o a args) s0) as [s1 [v|x]] eqn:E1;
      cbn [fst] in F1, L1.
    + specialize (IH (S i) s1).
      destruct (invoke_each p o name args (S i) ms s1) as [s2 [vs|x]] eqn:E2;
        cbn [fst snd] in IH |- *;
        destruct IH as (F2 & k & Hk & Hlog & Hok & Hr);
        (split; [exact (same_frame_trans (same_frame_trans F0 F1) F2)|]);
        exists (S k).
      * destruct (Hok vs eq_refl) as [-> Hlen].
        split; [cbn; lia|]. split.
        { rewrite Hlog, L1. unfold calls_of. cbn [s0 invoked seq map].
          now rewrite <- app_assoc. }
        split; [|discriminate].
        intros vs' Hvs. inversion Hvs; subst. cbn. now rewrite Hlen.
      * split; [cbn; lia|]. split.
        { rewrite Hlog, L1. unfold calls_of. cbn [s0 invoked seq map].
          now rewrite <- app_assoc. }
        split; [discriminate|]. intros; lia.
    + cbn [fst snd].
      split; [exact (same_frame_trans F0 F1)|].
      exists 1%nat. split; [cbn; lia|]. split.
      { rewrite L1. reflexivity. }
      split; [discriminate|]. intros; lia.
Qed.

Lemma resolve_all_length (name : string) (cs : list Cell)
      (ms : list cell_attr) :
  resolve_all o name cs = Ok ms -> length ms = length cs.
Proof.
  revert ms. induction cs as [|c cs IH]; intros ms H; cbn in H.
  - now inversion H.
  - destruct (Cell_getattr o c name); [|discriminate].
    destruct (resolve_all o name cs) as [l|]; [|discriminate].
    inversion H; subst. cbn. now rewrite (IH l).
Qed.

Lemma call_all_any (name : string) (args : list pyval) (s : EnvSt fn) :
  let s' := fst (call_all p o name args s) in
  let r := snd (call_all p o name args s) in
  same_frame s s' /\
  exists k, (k <= length (cells (env s)))%nat /\
    invoked s' = (invoked s ++ calls_of name 0 k)%list /\
    (forall vs, r = Ok vs ->
       k = length (cells (env s)) /\ length vs = length (cells (env s))).
Proof.
  unfold call_all, bind, get, lift_result.
  destruct (resolve_all o name (cells (env s))) as [ms|x] eqn:E.
  - pose proof (resolve_all_length _ _ E) as Hlen.
    destruct (invoke_each_any name args ms 0 s) as (F & k & Hk & Hlog & Hok & _).
    split; [exact F|]. exists k. rewrite <- Hlen. auto.
  - cbn. split; [apply same_frame_refl|]. exists 0%nat.
    unfold calls_of. cbn. rewrite app_nil_r.
    repeat split; try lia; discriminate.
Qed.

(** X11.  [call_all], whatever name and arguments it is given and whether or
    not a call raises: the clock, grid, position map, bound rules, printed
    output and the number of cells are as before; the cells were called in
    index order with none skipped; when it returns, every cell was called
    once and the list returned has one entry per cell; a name that a cell
    does not have is found out before any cell is called, so the state is
    then untouched; the five methods of the class, [__init__] among them,
    are found on every cell; and broadcasting [__init__] with no argument
    builds every cell anew from the generator, as a list of fresh [Cell()]
    would be built, and returns one [None] per cell. *)
Theorem call_all_contract (name : string) (args : list pyval)
        (s : EnvSt fn) :
  let s' := fst (call_all p o name args s) in
  let r := snd (call_all p o name args s) in
  same_frame s s' /\
  (exists k, (k <= length (cells (env s)))%nat /\
     invoked s' = (invoked s ++ calls_of name 0 k)%list /\
     (forall vs, r = Ok vs ->
        k = length (cells (env s)) /\ length vs = length (cells (env s)))) /\
  (forall c x, In c (cells (env s)) -> Cell_getattr o c name = Raise x ->
     s' = s /\ r = Raise x) /\
  (In name ["__init__"; "live"; "update_sensors"; "think"; "move"] ->
   forall c, exists a, Cell_getattr o c name = Ok a) /\
  (name = "__init__" -> args = [] ->
   replicateM (length (cells (env s))) (Cell_init p) (rng s) =
     (rng s', Ok (cells (env s'))) /\
   r = Ok (repeat PyNone (length (cells (env s))))).
Proof.
  intros s' r. destruct (call_all_any name args s) as [F L].
  split; [exact F|]. split; [exact L|]. split; [|split].
  - intros c x Hin Hx. subst s' r.
    unfold call_all, bind, get, lift_result.
    assert (E : resolve_all o name (cells (env s)) = Raise x).
    { clear - Hin Hx.
      induction (cells (env s)) as [|c0 cs IH]; [contradiction|].
      cbn [resolve_all].
      assert (H0 : Cell_getattr o c0 name = Raise x).
      { revert Hx. unfold Cell_getattr.
        repeat (destruct (_ : bool); [discriminate|]). auto. }
      now rewrite H0. }
    rewrite E. split; reflexivity.
  - intros Hin c. cbn [In] in Hin.
    destruct Hin as [<-|[<-|[<-|[<-|[<-|[]]]]]]; eexists; reflexivity.
  - intros -> ->. subst s' r.
    assert (Hrun : forall cs rs, exists cs' rs',
              replicateM (length cs) (Cell_init p) rs = (rs', Ok cs') /\
              run_cells (invoke p o MInit []) cs rs =
                ((cs', rs'), Ok (repeat PyNone (length cs)))).
    { induction cs as [|c cs IH]; intros rs.
      - exists [], rs. split; reflexivity.
      - destruct (Cell_init_fields p rs) as (c1 & rs1 & E1 & _).
        destruct (IH rs1) as (cs' & rs' & E2 & E3).
        exists (c1 :: cs'), rs'. split.
        + cbn [length replicateM]. unfold bind at 1. rewrite E1.
          unfold bind at 1. rewrite E2. reflexivity.
        + cbn [run_cells length repeat].
          assert (Ei : invoke p o MInit [] (c, rs) = ((c1, rs1), Ok PyNone)).
          { unfold invoke, bind, on_rng, on_self, zoom, put, ret.
            cbn [fst snd]. rewrite E1. reflexivity. }
          rewrite Ei, E3. reflexivity. }
    destruct (Hrun (cells (env s)) (rng s)) as (cs' & rs' & E1 & E2).
    rewrite (@call_all_run fn p o "__init__" [] MInit s cs' rs' _
               (fun c => eq_refl) E2).
    cbn [fst snd after_broadcast env rng cells set_cells].
    split; [exact E1|reflexivity].
Qed.

Variable fn_repr : fn -> string.

Lemma update_unfold (s : EnvSt fn) :
  update fn_repr p o s =
  if negb (np_any (cells (env s))) then (s, Ok 0%Z)
  else
    match call_all p o (py_format fn_repr (cellrule (env s)))
                   [PyInt (clock (env s)); pos_map (env s)] s with
    | (s1, Ok _) =>
        match call_all p o "think" [] (with_env tick s1) with
        | (s2, Ok _) => (with_env prune s2, Ok 1%Z)
        | (s2, Raise x) => (s2, Raise x)
        end
    | (s1, Raise x) => (s1, Raise x)
    end.
Proof.
  unfold update. unfold bind at 1. unfold get at 1.
  destruct (negb (np_any (cells (env s)))); [reflexivity|].
  unfold bind at 1. destruct (call_all p o _ _ s) as [s1 [vs|x]]; [|reflexivity].
  unfold bind at 1. unfold on_env at 1. unfold modify at 1.
  unfold bind at 1.
  change {| env := set_clock (clock (env s1) + 1) (env s1); rng := rng s1;
            out := out s1; invoked := invoked s1 |}
    with (with_env tick s1).
  destruct (call_all p o "think" [] (with_env tick s1)) as [s2 [vs2|x]];
    reflexivity.
Qed.

(** X12.  Every way [update] can end.  It returns 0 only on an empty collection,
    with the state untouched.  It returns 1 only on a non-empty one, and
    then the clock is one more than before, only cells with alive set are
    left, and there are no more of them than before.  When it raises, the
    collection was not empty and has not been filtered, and the clock is
    either as before or already one ahead (the second broadcast failed).
    In every case the rule name, the grid, the position map, the bound
    rules and the printed output are as before. *)
Theorem update_outcome (s : EnvSt fn) :
  let s' := fst (update fn_repr p o s) in
  let r := snd (update fn_repr p o s) in
  (forall v, r = Ok v ->
     (v = 0%Z /\ cells (env s) = [] /\ s' = s) \/
     (v = 1%Z /\ cells (env s) <> [] /\
      clock (env s') = (clock (env s) + 1)%Z /\
      Forall (fun c => alive c = true) (cells (env s')) /\
      (length (cells (env s')) <= length (cells (env s)))%nat)) /\
  (forall x, r = Raise x ->
     cells (env s) <> [] /\
     length (cells (env s')) = length (cells (env s)) /\
     (clock (env s') = clock (env s) \/
      clock (env s') = (clock (env s) + 1)%Z)) /\
  (cellrule (env s') = cellrule (env s) /\ size (env s') = size (env s) /\
   grid (env s') = grid (env s) /\ pos_map (env s') = pos_map (env s) /\
   bound (env s') = bound (env s) /\ out s' = out s).
Proof.
  cbv zeta. rewrite update_unfold.
  destruct (cells (env s)) as [|c cs] eqn:Hc; cbn [np_any existsb orb negb].
  - cbn [fst snd]. split; [|split]; [| discriminate | tauto].
    intros v Hv. inversion Hv. left. auto.
  - set (name := py_format fn_repr (cellrule (env s))).
    set (args := [PyInt (clock (env s)); pos_map (env s)]).
    destruct (call_all_any name args s) as [F1 _].
    destruct (call_all p o name args s) as [s1 [vs1|x1]]; cbn [fst] in F1.
    + destruct (call_all_any "think" [] (with_env tick s1)) as [F2 _].
      destruct (call_all p o "think" [] (with_env tick s1)) as [s2 [vs2|x2]];
        cbn [fst snd] in F2 |- *;
        unfold same_frame in F1, F2; cbn [with_env env out tick prune
          set_clock set_cells cellrule clock size ncell grid pos_map bound
          cells] in F1, F2 |- *;
        decompose [and] F1; decompose [and] F2; clear F1 F2.
      * split; [|split]; [| discriminate | repeat split; congruence].
        intros v Hv. inversion Hv. right.
        split; [reflexivity|]. split; [discriminate|].
        split; [congruence|]. split.
        { apply Forall_forall. intros c0 Hin. apply filter_In in Hin. tauto. }
        { etransitivity; [apply filter_length_le|]. rewrite Hc in *.
          cbn [length] in *. lia. }
      * split; [discriminate|]. split; [|repeat split; congruence].
        intros x Hx. split; [discriminate|]. rewrite Hc in *.
        split; [cbn [length] in *; lia|]. right. congruence.
    + cbn [fst snd]. unfold same_frame in F1. decompose [and] F1. clear F1.
      split; [discriminate|]. split; [|repeat split; congruence].
      intros x Hx. split; [discriminate|]. rewrite Hc in *.
      split; [assumption|]. left. assumption.
Qed.

End BroadcastFrame.

(** ** get_grid once more *)

Lemma filter_map_length {A B : Type} (f : B -> bool) (g : A -> B)
      (l : list A) :
  length (filter f (map g l)) = length (filter (fun a => f (g a)) l).
Proof.
  induction l as [|a l IH]; cbn; [reflexivity|].
  destruct (f (g a)); cbn; now rewrite IH.
Qed.

Lemma row_sum_count (r : list Z) (k : nat) :
  binary_row r ->
  row_sum r =
  Z.of_nat (length (filter (fun c => Z.eqb (nth (c - k) r 0%Z) 1)
                           (seq k (length r)))).
Proof.
  revert k. induction r as [|a r IH]; intros k Hb; [reflexivity|].
  inversion Hb as [|? ? Ha Hr]; subst.
  assert (E : filter (fun c => Z.eqb (nth (c - k) (a :: r) 0%Z) 1)
                     (seq (S k) (length r)) =
              filter (fun c => Z.eqb (nth (c - S k) r 0%Z) 1)
                     (seq (S k) (length r))).
  { apply filter_ext_in. intros c Hc. apply in_seq in Hc.
    replace (c - k)%nat with (S (c - S k)) by lia. reflexivity. }
  cbn [length seq filter]. rewrite E, Nat.sub_diag. cbn [nth].
  specialize (IH (S k) Hr).
  unfold row_sum in *. cbn [fold_right].
  destruct Ha as [-> | ->]; cbn [Z.eqb Pos.eqb length]; lia.
Qed.

Lemma grid_sum_count (n : nat) (g : list (list Z)) (k : nat) :
  Forall (fun r => length r = n) g -> binary_grid g ->
  grid_sum g =
  Z.of_nat (length (filter
    (fun rc => Z.eqb (nth (snd rc) (nth (fst rc - k) g []) 0%Z) 1)
    (list_prod (seq k (length g)) (seq 0 n)))).
Proof.
  revert k. induction g as [|row g IH]; intros k Hn Hb; [reflexivity|].
  inversion Hn as [|? ? Hrow Hn']; subst.
  inversion Hb as [|? ? Hbrow Hb']; subst.
  cbn [length seq list_prod]. rewrite filter_app, length_app.
  rewrite filter_map_length.
  assert (E : filter (fun rc => Z.eqb (nth (snd rc)
                        (nth (fst rc - k) (row :: g) []) 0%Z) 1)
                     (list_prod (seq (S k) (length g)) (seq 0 (length row))) =
              filter (fun rc => Z.eqb (nth (snd rc)
                        (nth (fst rc - S k) g []) 0%Z) 1)
                     (list_prod (seq (S k) (length g)) (seq 0 (length row)))).
  { apply filter_ext_in. intros [r c] Hrc. apply in_prod_iff in Hrc.
    destruct Hrc as [Hr _]. apply in_seq in Hr. cbn [fst snd].
    replace (r - k)%nat with (S (r - S k)) by lia. reflexivity. }
  rewrite E. specialize (IH (S k) Hn' Hb').
  pose proof (row_sum_count 0 Hbrow) as Hrs.
  assert (E2 : filter (fun a => Z.eqb (nth (snd (k, a))
                         (nth (fst (k, a) - k) (row :: g) []) 0%Z) 1)
                      (seq 0 (length row)) =
               filter (fun c => Z.eqb (nth (c - 0) row 0%Z) 1)
                      (seq 0 (length row))).
  { apply filter_ext. intros c. cbn [fst snd].
    now rewrite Nat.sub_diag, Nat.sub_0_r. }
  rewrite E2.
  unfold grid_sum in *. cbn [map fold_right]. lia.
Qed.

Lemma marked_at (n : nat) (pm : list (Z * Z)) (r c : nat) :
  Forall (in_grid n) pm -> (r < n)%nat ->
  grid_at (marked n pm) r c = if occupied pm r c then 1%Z else 0%Z.
Proof.
  intros Hin Hr. unfold marked.
  rewrite (grid_at_fold (n := n)); [| apply np_zeros_square | | exact Hr].
  - rewrite np_zeros_at. now rewrite (@occupied_to_nat n _ r c Hin).
  - clear - Hin. induction Hin as [|[r0 c0] l [H1 H2] _ IH]; cbn [map];
      constructor; [|exact IH].
    cbn [to_nat_pair fst snd] in *. lia.
Qed.

Lemma norm_index_cases (n : nat) (i : Z) :
  (indexable n i /\ exists k, norm_index n i = Ok k) \/
  (~ indexable n i /\ norm_index n i = Raise IndexError).
Proof.
  unfold norm_index, indexable.
  destruct (Z.leb_spec 0 i), (Z.ltb_spec i (Z.of_nat n)); cbn [andb];
    try (left; split; [lia|eexists; reflexivity]);
    destruct (Z.leb_spec (- Z.of_nat n) i), (Z.ltb_spec i 0); cbn [andb];
    try (left; split; [lia|eexists; reflexivity]);
    right; split; (lia || reflexivity).
Qed.

Lemma norm_indices_exn (n : nat) (idx : list (Z * Z)) (x : exn) :
  norm_indices n idx = Raise x -> x = IndexError.
Proof.
  induction idx as [|[r c] idx IH]; cbn [norm_indices]; [discriminate|].
  destruct (norm_index_cases n r) as [[_ [k ->]]|[_ ->]];
    [|intros H; now inversion H].
  destruct (norm_index_cases n c) as [[_ [k' ->]]|[_ ->]];
    [|intros H; now inversion H].
  destruct (norm_indices n idx); [discriminate|].
  intros H. inversion H; subst. now apply IH.
Qed.

Lemma norm_indices_bad (n : nat) (idx : list (Z * Z)) :
  Exists (fun rc => ~ indexable n (fst rc) \/ ~ indexable n (snd rc)) idx ->
  norm_indices n idx = Raise IndexError.
Proof.
  induction 1 as [[r c] idx Hbad|[r c] idx _ IH]; cbn [norm_indices].
  - cbn [fst snd] in Hbad.
    destruct (norm_index_cases n r) as [[Hr [k ->]]|[_ ->]]; [|reflexivity].
    destruct (norm_index_cases n c) as [[Hc [k' ->]]|[_ ->]]; [|reflexivity].
    tauto.
  - destruct (norm_index_cases n r) as [[_ [k ->]]|[_ ->]]; [|reflexivity].
    destruct (norm_index_cases n c) as [[_ [k' ->]]|[_ ->]]; [|reflexivity].
    now rewrite IH.
Qed.

Section GridAgain.

Variable fn : Type.

Lemma get_grid_cases (s : EnvSt fn) :
  get_grid s =
  match map cell_coords (cells (env s)) with
  | [] =>
      (with_env (fun e0 => set_pos_map (PyPairs [])
                             (set_grid (np_zeros (size e0)) e0)) s,
       Raise ValueError)
  | pm =>
      match norm_indices (size (env s)) pm with
      | Ok l =>
          (with_env (fun e0 =>
                       set_grid (fold_left (grid_set 1) l (np_zeros (size e0)))
                                (set_pos_map (PyPairs pm) e0)) s, Ok tt)
      | Raise x =>
          (with_env (fun e0 => set_pos_map (PyPairs pm)
                                 (set_grid (np_zeros (size e0)) e0)) s,
           Raise x)
      end
  end.
Proof.
  unfold get_grid, bind, on_env, modify, get, raise, lift_result,
    fancy_assign.
  cbn [env set_pos_map set_grid cells size grid].
  destruct (map cell_coords (cells (env s))) as [|rc pm]; [reflexivity|].
  destruct (norm_indices (size (env s)) (rc :: pm)); reflexivity.
Qed.

(** X13.  [get_grid] reads the cells and the size and writes the grid and the
    position map, nothing else: cells, clock, rule bindings, generator,
    printed output and call log are as before, however it ends.  Calling
    it again straight away changes nothing more and ends the same way. *)
Theorem get_grid_repeatable (s : EnvSt fn) :
  same_population s (fst (get_grid s)) /\
  get_grid (fst (get_grid s)) = get_grid s.
Proof.
  split.
  - rewrite get_grid_cases.
    destruct (map cell_coords (cells (env s))) as [|rc pm]; cbv zeta;
      [|destruct (norm_indices (size (env s)) (rc :: pm))];
      unfold same_population; repeat split; reflexivity.
  - rewrite (get_grid_cases s).
    destruct (map cell_coords (cells (env s))) as [|rc pm] eqn:Epm;
      cbv zeta;
      [|destruct (norm_indices (size (env s)) (rc :: pm)) eqn:En];
      cbn [fst]; rewrite get_grid_cases;
      cbn [with_env env cells size set_grid set_pos_map];
      rewrite Epm; cbv zeta; try rewrite En; reflexivity.
Qed.

(** X14.  A cell whose integer coordinate is not an index of the grid (outside
    [-size, size) on either axis) makes [get_grid] raise [IndexError]; the
    position map it leaves has been rebuilt, with the pair of every cell,
    and the grid it leaves is all zero, with no square marked. *)
Theorem get_grid_off_grid (s : EnvSt fn) :
  Exists (fun c => ~ indexable (size (env s)) (fst (cell_coords c)) \/
                   ~ indexable (size (env s)) (snd (cell_coords c)))
         (cells (env s)) ->
  get_grid s =
  (with_env (fun e0 =>
               set_pos_map (PyPairs (map cell_coords (cells (env s))))
                           (set_grid (np_zeros (size e0)) e0)) s,
   Raise IndexError) /\
  snd (get_grid s) = Raise IndexError /\
  grid (env (fst (get_grid s))) = np_zeros (size (env s)) /\
  grid_sum (grid (env (fst (get_grid s)))) = 0%Z /\
  pos_map (env (fst (get_grid s))) =
    PyPairs (map (fun c => (py_int (fst (pos c)), py_int (snd (pos c))))
                 (cells (env s))) /\
  cells (env (fst (get_grid s))) = cells (env s).
Proof.
  intros Hbad.
  assert (E : get_grid s =
    (with_env (fun e0 =>
                 set_pos_map (PyPairs (map cell_coords (cells (env s))))
                             (set_grid (np_zeros (size e0)) e0)) s,
     Raise IndexError)).
  { rewrite get_grid_cases.
    assert (E : norm_indices (size (env s))
                  (map cell_coords (cells (env s))) = Raise IndexError).
    { apply norm_indices_bad. apply Exists_exists in Hbad.
      destruct Hbad as (c & Hin & Hc). apply Exists_exists.
      exists (cell_coords c). split; [now apply in_map|exact Hc]. }
    destruct (map cell_coords (cells (env s))) as [|rc pm] eqn:Epm.
    - apply Exists_exists in Hbad. destruct Hbad as (c & Hin & _).
      destruct (cells (env s)); [contradiction|discriminate].
    - cbv zeta. rewrite E. reflexivity. }
  rewrite E. cbn [fst snd with_env env grid pos_map cells set_pos_map set_grid].
  repeat split; try reflexivity. apply np_zeros_sum.
Qed.

(** X15.  The sum of the grid [get_grid] builds is the number of squares on
    which at least one cell stands: cells sharing a square count once. *)
Theorem get_grid_counts_squares (s : EnvSt fn) :
  cells (env s) <> [] ->
  Forall (on_grid (size (env s))) (cells (env s)) ->
  let pm := map cell_coords (cells (env s)) in
  snd (get_grid s) = Ok tt /\
  grid_sum (grid (env (fst (get_grid s)))) =
  Z.of_nat (length (filter (fun rc => occupied pm (fst rc) (snd rc))
                           (squares (size (env s))))).
Proof.
  intros Hne Hon pm. rewrite (get_grid_returns s Hne Hon). cbv zeta.
  fold pm. cbn [fst snd with_env env grid set_grid]. split; [reflexivity|].
  pose proof (@on_grid_coords _ _ Hon) as Hin. fold pm in Hin.
  set (n := size (env s)) in *.
  assert (Hsq : square n (marked n pm)) by apply fold_square, np_zeros_square.
  destruct (grid_sum_fold (map to_nat_pair pm) (np_zeros_binary n))
    as [_ Hbin]. fold (marked n pm) in Hbin.
  destruct Hsq as [Hlen Hrows].
  rewrite (grid_sum_count 0 Hrows Hbin), Hlen. unfold squares.
  do 2 f_equal. apply filter_ext_in. intros [r c] Hrc.
  apply in_prod_iff in Hrc. destruct Hrc as [Hr Hc].
  apply in_seq in Hr. apply in_seq in Hc. cbn [fst snd].
  rewrite Nat.sub_0_r.
  change (nth c (nth r (marked n pm) []) 0%Z) with (grid_at (marked n pm) r c).
  rewrite (@marked_at n pm r c Hin) by lia.
  now destruct (occupied pm r c).
Qed.

End GridAgain.

Lemma get_grid_off_grid_witness :
  let s := state_of (env_of [sample_cell; stray_cell]) in
  snd (get_grid s) = Raise IndexError /\
  grid (env (fst (get_grid s))) = np_zeros 5 /\
  grid_sum (grid (env (fst (get_grid s)))) = 0%Z /\
  pos_map (env (fst (get_grid s))) =
    PyPairs [(py_int 2, py_int 0); (py_int 7, py_int 0)] /\
  cells (env (fst (get_grid s))) = [sample_cell; stray_cell].
Proof.
  apply (@get_grid_off_grid unit (state_of (env_of [sample_cell; stray_cell]))).
  apply Exists_cons_tl, Exists_cons_hd. left.
  unfold indexable, cell_coords, stray_cell.
  cbn [pos set_pos fst snd size env state_of env_of].
  rewrite py_int_IZR. lia.
Defined.

Lemma get_grid_counts_squares_witness :
  let s := state_of (env_of [sample_cell; sample_cell]) in
  let pm := map cell_coords [sample_cell; sample_cell] in
  snd (get_grid s) = Ok tt /\
  grid_sum (grid (env (fst (get_grid s)))) =
  Z.of_nat (length (filter (fun rc => occupied pm (fst rc) (snd rc))
                           (squares 5))).
Proof.
  apply (@get_grid_counts_squares unit
           (state_of (env_of [sample_cell; sample_cell]))).
  - discriminate.
  - repeat constructor; cbn; lra.
Defined.

Lemma construction_without_cells_eq {fn : Type}
      (simrules cellrules : list (string * fn)) (p : Params)
      (rs : RandomState) (sr cr : string * fn) :
  resolve "default" simrules = Some sr ->
  resolve "default" cellrules = Some cr ->
  n_cell p = 0%nat ->
  Simulation_init simrules cellrules p "default" "default" rs =
  (rs, Ok {| simrule := sr;
             e := {| cellrule := RuleEntry cr; clock := 0;
                     size := grid_size p; ncell := 0;
                     grid := np_zeros (grid_size p); cells := [];
                     pos_map := PyInt 0;
                     bound := [(fst sr, snd sr)] |} |}).
Proof.
  intros Esr Ecr Hn. unfold Simulation_init, Environment_init.
  rewrite Esr, Ecr, Hn. reflexivity.
Qed.

(** * The run loop and the script *)

Section RunLoop.

Variable fn : Type.
Variable simrules : list (string * fn).
Variable cellrules : list (string * fn).
Variable sim_call : fn -> M (EnvSt fn) unit.

Lemma iteration_extinct (sr : string * fn) (f : fn) (s s1 : EnvSt fn) :
  lookup (fst sr) (bound (env s)) = Some f ->
  sim_call f s = (s1, Ok tt) ->
  cells (env s1) = [] ->
  iteration sim_call sr s = (wiped s1, Raise ValueError).
Proof.
  intros Hl Hf Hc. unfold iteration. unfold bind at 1.
  unfold env_call. unfold bind at 1. unfold get at 1. rewrite Hl, Hf.
  unfold bind at 1. now rewrite (get_grid_empty s1 Hc).
Qed.

(** X16.  Extinction as [main] sees it.  The rule is bound under a name that
    replaces no attribute of the environment.  When it returns and leaves
    no live cell in the first iteration, the grid recomputation right after
    it raises, [main] prints "Dead" after whatever the rule printed and
    returns 0: nothing is plotted in that iteration, none of the remaining
    iterations runs, and the environment is left with an all-zero grid and
    an empty position map. *)
Theorem main_stops_when_extinct (p : Params) (sr : string * fn) (f : fn)
        (s s1 : EnvSt fn) :
  (1 <= num_sim p)%nat ->
  free_name (fst sr) ->
  lookup (fst sr) (bound (env s)) = Some f ->
  sim_call f (print_line "iteration n. 0" s) = (s1, Ok tt) ->
  cells (env s1) = [] ->
  let s' := fst (main sim_call p sr s) in
  main sim_call p sr s = (print_dead (wiped s1), Ok 0%Z) /\
  out s' = (out s1 ++ [Printed "Dead"])%list /\
  cells (env s') = [] /\
  grid (env s') = np_zeros (size (env s1)) /\
  pos_map (env s') = PyPairs [] /\
  clock (env s') = clock (env s1).
Proof.
  intros Hn _ Hl Hf Hc s'.
  assert (E : main sim_call p sr s = (print_dead (wiped s1), Ok 0%Z)).
  { unfold main. unfold bind at 1.
    destruct (num_sim p) as [|n]; [lia|]. cbn [seq main_loop].
    unfold bind at 1. unfold emit at 1. unfold modify at 1.
    change {| env := env s; rng := rng s;
              out := (out s ++ [Printed ("iteration n. " ++ string_of_nat 0)])%list;
              invoked := invoked s |}
      with (print_line "iteration n. 0" s).
    rewrite (@iteration_extinct sr f (print_line "iteration n. 0" s) s1 Hl Hf Hc).
    reflexivity. }
  subst s'. rewrite E. cbn. rewrite Hc. repeat split; reflexivity.
Qed.

(** X17.  The script as a whole, for registries that both hold a function named
    "default".  With at least one cell configured it ends in the
    constructor with [AttributeError] and prints nothing.  With no cell
    configured, and a default rule that returns on an empty environment
    leaving it empty and silent, it prints "iteration n. 0" and "Dead" and
    returns 0 when num_sim is at least one, and prints nothing when num_sim
    is zero.  In no case is a figure plotted. *)
Theorem entry_point_outcomes (p : Params) (rs : RandomState)
        (sr cr : string * fn) :
  resolve "default" simrules = Some sr ->
  resolve "default" cellrules = Some cr ->
  (forall s, cells (env s) = [] ->
     exists s1, sim_call (snd sr) s = (s1, Ok tt) /\
                cells (env s1) = [] /\ out s1 = out s) ->
  ((1 <= n_cell p)%nat ->
   entry_point simrules cellrules sim_call p rs =
   ([], Raise (AttributeError
                 "'Simulation' object has no attribute 'cellrule'"))) /\
  (n_cell p = 0%nat -> (1 <= num_sim p)%nat ->
   entry_point simrules cellrules sim_call p rs =
   ([Printed "iteration n. 0"; Printed "Dead"], Ok 0%Z)) /\
  (n_cell p = 0%nat -> num_sim p = 0%nat ->
   entry_point simrules cellrules sim_call p rs = ([], Ok 0%Z)).
Proof.
  intros Hsr Hcr Hrule. unfold entry_point. split; [|split].
  - intros Hn.
    destruct (@Environment_init_returns fn p rs) as (cs & rs' & Hlen & Ee).
    unfold Simulation_init. rewrite Hsr. unfold bind at 1.
    rewrite Ee, Hcr. cbn [cells env_setattr].
    destruct cs as [|c cs]; [cbn in Hlen; lia|]. reflexivity.
  - intros Hn Hsim.
    rewrite (construction_without_cells_eq simrules cellrules p rs Hsr Hcr Hn).
    cbn [simrule e start].
    match goal with |- context [main sim_call p sr ?s0] => set (s := s0) end.
    destruct (Hrule (print_line "iteration n. 0" s) eq_refl)
      as (s1 & Hf & Hc & Hout).
    assert (Hl : lookup (fst sr) (bound (env s)) = Some (snd sr)).
    { cbn. now rewrite String.eqb_refl. }
    unfold main. unfold bind at 1.
    destruct (num_sim p) as [|n] eqn:En; [lia|]. cbn [seq main_loop].
    unfold bind at 1. unfold emit at 1. unfold modify at 1.
    change {| env := env s; rng := rng s;
              out := (out s ++ [Printed ("iteration n. " ++ string_of_nat 0)])%list;
              invoked := invoked s |}
      with (print_line "iteration n. 0" s).
    rewrite (@iteration_extinct sr (snd sr) (print_line "iteration n. 0" s)
               s1 Hl Hf Hc).
    cbn. rewrite Hout. reflexivity.
  - intros Hn Hsim.
    rewrite (construction_without_cells_eq simrules cellrules p rs Hsr Hcr Hn).
    unfold main. rewrite Hsim. reflexivity.
Qed.

End RunLoop.

Lemma demo_update_on_empty (p : Params) (s : EnvSt demo_fn) :
  cells (env s) = [] ->
  exists s1, demo_call p fn_update s = (s1, Ok tt) /\
             cells (env s1) = [] /\ out s1 = out s.
Proof.
  intros Hc. exists s. unfold demo_call, update, bind, get, ret.
  rewrite Hc. cbn. auto.
Qed.

Lemma main_stops_when_extinct_witness :
  let s' := fst (main (demo_call three_runs) three_runs ("default", fn_update)
                      extinct_state) in
  main (demo_call three_runs) three_runs ("default", fn_update) extinct_state =
  (print_dead (wiped (print_line "iteration n. 0" extinct_state)), Ok 0%Z) /\
  out s' = [Printed "iteration n. 0"; Printed "Dead"] /\
  cells (env s') = [] /\
  grid (env s') = np_zeros 5 /\
  pos_map (env s') = PyPairs [] /\
  clock (env s') = 0%Z.
Proof.
  apply (@main_stops_when_extinct demo_fn (demo_call three_runs) three_runs
           ("default", fn_update) fn_update extinct_state
           (print_line "iteration n. 0" extinct_state)).
  - cbn. lia.
  - unfold free_name. cbn. intuition discriminate.
  - reflexivity.
  - reflexivity.
  - reflexivity.
Defined.

Lemma entry_point_outcomes_witness :
  entry_point demo_registry demo_registry (demo_call three_runs) three_runs zero_rng =
  ([Printed "iteration n. 0"; Printed "Dead"], Ok 0%Z).
Proof.
  apply (proj1 (proj2 (@entry_point_outcomes demo_fn demo_registry
                         demo_registry (demo_call three_runs) three_runs zero_rng
                         ("default", fn_update) ("default", fn_update)
                         eq_refl eq_refl
                         (demo_update_on_empty three_runs)))).
  - reflexivity.
  - cbn. lia.
Defined.

Lemma Cell_init_fresh_eq (p : Params) (rs : RandomState) :
  exists c rs',
    Cell_init p rs = (rs', Ok c) /\
    rs_cursor rs' = (rs_cursor rs + 6 + num_actions p * num_sensors p)%nat /\
    rs_sample rs' = rs_sample rs /\
    alive c = true /\ age c = 0%Z /\ whole_cell c /\
    c_grid_size c = grid_size p.
Proof.
  unfold Cell_init, bind, rs_take, ret. cbn [fst snd rs_cursor rs_sample].
  do 2 eexists. split; [reflexivity|].
  cbn [rs_cursor rs_sample alive age c_grid_size].
  split; [lia|]. repeat split; try apply np_round_whole.
  cbn [actions ravel]. apply Forall_forall. intros a Ha.
  apply repeat_spec in Ha. now left.
Qed.

(** * A tick and the grid after it *)

Lemma invoke_live_runnable (p : Params) (o : object_type) (n : nat) (t : Z)
      (pos_map : pyval) (c : Cell) (rs : RandomState) :
  runnable n c ->
  exists c1 rs1,
    invoke p o MLive [PyInt t; pos_map] (c, rs) = ((c1, rs1), Ok PyNone) /\
    ready c1 /\ on_grid n c1.
Proof.
  intros (Hw & Hg & Hn).
  destruct (@live_on_grid t pos_map c rs Hw ltac:(lia)) as (c1 & rs1 & E & Hon & Hr).
  exists c1, rs1. unfold invoke, bind. rewrite E. rewrite Hg in Hon.
  split; [reflexivity|]. split; assumption.
Qed.

Lemma run_cells_live_on_grid (p : Params) (o : object_type) (n : nat)
      (t : Z) (pos_map : pyval) (cs : list Cell) (rs : RandomState) :
  Forall (runnable n) cs ->
  exists cs1 rs1 vs1,
    run_cells (invoke p o MLive [PyInt t; pos_map]) cs rs = ((cs1, rs1), Ok vs1) /\
    Forall (fun c => ready c /\ on_grid n c) cs1.
Proof.
  intros H. revert rs. induction H as [|c cs Hc _ IH]; intros rs.
  - exists [], rs, []. split; [reflexivity|constructor].
  - destruct (invoke_live_runnable p o t pos_map rs Hc)
      as (c1 & rs1 & E & Hr & Hon).
    destruct (IH rs1) as (cs1 & rs2 & vs1 & E2 & Hall).
    exists (c1 :: cs1), rs2, (PyNone :: vs1). cbn [run_cells].
    rewrite E, E2. split; [reflexivity|]. constructor; auto.
Qed.

Lemma run_cells_think_on_grid (p : Params) (o : object_type) (n : nat)
      (cs : list Cell) (rs : RandomState) :
  Forall (fun c => ready c /\ on_grid n c) cs ->
  exists cs2 vs2,
    run_cells (invoke p o MThink []) cs rs = ((cs2, rs), Ok vs2) /\
    Forall (on_grid n) cs2.
Proof.
  induction 1 as [|c cs [Hr Hon] _ (cs2 & vs2 & IH & Hall)].
  - exists [], []. split; [reflexivity|constructor].
  - destruct (invoke_think_ready p o rs Hr) as (c1 & E & Hp).
    exists (c1 :: cs2), (PyNone :: vs2). cbn [run_cells].
    rewrite E, IH. split; [reflexivity|]. constructor; [|exact Hall].
    unfold on_grid in *. now rewrite Hp.
Qed.

Lemma Forall_filter {A : Type} (P : A -> Prop) (f : A -> bool) (l : list A) :
  Forall P l -> Forall P (filter f l).
Proof.
  intros H. apply Forall_forall. intros x Hx. apply filter_In in Hx.
  rewrite Forall_forall in H. now apply H.
Qed.

Section TickAndGrid.

Variable fn : Type.
Variable fn_repr : fn -> string.
Variable p : Params.
Variable o : object_type.

(** X18.  One tick and the grid after it, when [cellrule] names [live] and every
    cell can run on the environment's grid.  [update] returns 1 and every
    cell it keeps is alive and stands on the grid, so [get_grid] right after
    it never fails on an index: it returns when a cell is left, and raises
    [ValueError] exactly when the tick left none. *)
Theorem tick_then_grid (s : EnvSt fn) :
  cells (env s) <> [] ->
  cellrule (env s) = RuleName "live" ->
  Forall (runnable (size (env s))) (cells (env s)) ->
  exists s1,
    update fn_repr p o s = (s1, Ok 1%Z) /\
    Forall (fun c => alive c = true /\ on_grid (size (env s1)) c)
           (cells (env s1)) /\
    (cells (env s1) <> [] -> snd (get_grid s1) = Ok tt) /\
    (cells (env s1) = [] -> snd (get_grid s1) = Raise ValueError).
Proof.
  intros Hne Hrule Hrun.
  destruct (run_cells_live_on_grid p o (clock (env s)) (pos_map (env s))
              (rng s) Hrun) as (cs1 & rs1 & vs1 & E1 & H1).
  destruct (run_cells_think_on_grid p o rs1 H1) as (cs2 & vs2 & E2 & H2).
  eexists.
  split; [exact (@update_live fn fn_repr p o s cs1 cs2 rs1 rs1 vs1 vs2
                   Hne Hrule E1 E2)|].
  cbn [env cells size set_cells set_clock].
  assert (Hon : Forall (on_grid (size (env s))) (filter alive cs2))
    by (apply Forall_filter; exact H2).
  split.
  - apply Forall_forall. intros c Hc. split.
    + apply filter_In in Hc. tauto.
    + rewrite Forall_forall in Hon. now apply Hon.
  - split; intros Hc.
    + match goal with |- snd (get_grid ?st) = _ =>
        rewrite (get_grid_returns st Hc Hon)
      end. reflexivity.
    + match goal with |- snd (get_grid ?st) = _ =>
        rewrite (get_grid_empty st Hc)
      end. reflexivity.
Qed.

End TickAndGrid.

Lemma tick_then_grid_witness :
  exists s1,
    update unit_repr one_run bare_object live_state = (s1, Ok 1%Z) /\
    Forall (fun c => alive c = true /\ on_grid (size (env s1)) c)
           (cells (env s1)) /\
    (cells (env s1) <> [] -> snd (get_grid s1) = Ok tt) /\
    (cells (env s1) = [] -> snd (get_grid s1) = Raise ValueError).
Proof.
  apply (@tick_then_grid unit unit_repr one_run bare_object live_state).
  - discriminate.
  - reflexivity.
  - constructor; [|constructor]. unfold runnable, well_shaped. cbn. lia.
Defined.

(** ** Environment.__init__ *)

Lemma replicateM_Cell_init_fresh (p : Params) (n : nat) (rs : RandomState) :
  exists cs rs',
    replicateM n (Cell_init p) rs = (rs', Ok cs) /\
    length cs = n /\
    rs_cursor rs' =
      (rs_cursor rs + n * (6 + num_actions p * num_sensors p))%nat /\
    rs_sample rs' = rs_sample rs /\
    Forall (fun c => alive c = true /\ age c = 0%Z /\ whole_cell c /\
                     c_grid_size c = grid_size p) cs.
Proof.
  revert rs. induction n as [|n IH]; intros rs.
  - exists [], rs. cbn. repeat split; auto; lia.
  - destruct (Cell_init_fresh_eq p rs)
      as (c & rs1 & E1 & Hcur & Hsam & Ha & Hg & Hw & Hgs).
    destruct (IH rs1) as (cs & rs2 & E2 & Hlen & Hcur2 & Hsam2 & Hall).
    exists (c :: cs), rs2. cbn [replicateM]. unfold bind at 1.
    rewrite E1. unfold bind at 1. rewrite E2. unfold ret.
    split; [reflexivity|]. split; [cbn; now rewrite Hlen|].
    split; [rewrite Hcur2, Hcur; lia|]. split; [congruence|].
    constructor; auto.
Qed.

(** X19.  A new environment.  [Environment.__init__] always returns, with exactly
    n_cell cells, each alive with age 0, a whole position and the
    configured grid size; the clock is 0, the grid is grid_size x grid_size
    and sums to 0, [cellrule] is the string "default", the position map is
    the integer 0 and nothing is bound; exactly
    n_cell * (6 + num_actions * num_sensors) samples were drawn. *)
Theorem Environment_init_fresh (fn : Type) (p : Params) (rs : RandomState) :
  exists (e0 : Environment fn) rs',
    Environment_init p rs = (rs', Ok e0) /\
    length (cells e0) = n_cell p /\
    Forall (fun c => alive c = true /\ age c = 0%Z /\ whole_cell c /\
                     c_grid_size c = grid_size p) (cells e0) /\
    clock e0 = 0%Z /\ size e0 = grid_size p /\
    square (grid_size p) (grid e0) /\ grid_sum (grid e0) = 0%Z /\
    cellrule e0 = RuleName "default" /\ pos_map e0 = PyInt 0 /\
    bound e0 = [] /\
    rs_cursor rs' =
      (rs_cursor rs + n_cell p * (6 + num_actions p * num_sensors p))%nat /\
    rs_sample rs' = rs_sample rs.
Proof.
  destruct (replicateM_Cell_init_fresh p (n_cell p) rs)
    as (cs & rs' & E & Hlen & Hcur & Hsam & Hall).
  eexists. exists rs'. unfold Environment_init, bind. rewrite E. unfold ret.
  split; [reflexivity|]. cbn [cells clock size grid cellrule pos_map bound].
  repeat split; auto using np_zeros_sum; apply np_zeros_square.
Qed.
